(** * The TenantSync package relay and the metered flow generator

    A shallow embedding of two handlers of the repository:

    - [api/tenantsync.js]: the sync relay (upload, upload-chunk,
      upload-complete, download, and the API-key gate of the router);
    - [api/generate-flow-protected.js]: the flow generator with its
      per-tier monthly limit.

    The hosted Postgres database is modelled as a record of tables; a
    table with a primary key or a UNIQUE constraint is a finite map from
    that key.  Every SQL statement of a handler is one state transformer.
    Values the handlers obtain from outside (the clock, a generated row
    id, the LLM reply) are read from an explicit environment. *)

From Stdlib Require Import ZArith QArith Ascii String List Lia.
From stdpp Require Import gmap strings list fin_maps.

Local Open Scope Z_scope.
Local Open Scope string_scope.

(** ** JSON values and the JavaScript operations the handlers apply to them *)

Module JS.

#[warnings="-register-all"]
Inductive json :=
| JNull
| JBool (b : bool)
| JNum (z : Z)
| JStr (s : string)
| JArr (items : list json)
| JObj (fields : list (string * json)).

(** JavaScript truthiness of a JSON value. *)
Definition truthy (v : json) : bool :=
  match v with
  | JNull => false
  | JBool b => b
  | JNum z => negb (z =? 0)%Z
  | JStr s => negb (s =? "")
  | JArr _ | JObj _ => true
  end.

(** [!x] on an optional string field: undefined and the empty string are
    falsy. *)
Definition given (s : option string) : bool :=
  match s with
  | Some t => negb (t =? "")
  | None => false
  end.

Fixpoint assoc (k : string) (fields : list (string * json)) : option json :=
  match fields with
  | [] => None
  | (k', v) :: rest => if k' =? k then Some v else assoc k rest
  end.

(** [v?.k] for the property names the relay reads ([components], [flows],
    [length]); [None] is undefined. *)
Definition get_prop (v : option json) (k : string) : option json :=
  match v with
  | Some (JObj fields) => assoc k fields
  | Some (JStr s) =>
      if k =? "length" then Some (JNum (Z.of_nat (String.length s))) else None
  | Some (JArr items) =>
      if k =? "length" then Some (JNum (Z.of_nat (List.length items))) else None
  | _ => None
  end.

End JS.

(** ** Handlers as state transformers that may throw

    A handler runs its SQL statements one after the other, without a
    transaction: when a statement throws, the writes made before it stay. *)

Module Handler.

Inductive result (A : Type) :=
| Ok (a : A)
| Thrown (message : string).
Arguments Ok {A} a.
Arguments Thrown {A} message.

Section Monad.
Context {S : Type}.

Definition M (A : Type) : Type := S -> result A * S.

Definition ret {A} (a : A) : M A := fun d => (Ok a, d).
Definition throw {A} (message : string) : M A := fun d => (Thrown message, d).
Definition bind {A B} (m : M A) (k : A -> M B) : M B :=
  fun d =>
    match m d with
    | (Ok a, d') => k a d'
    | (Thrown e, d') => (Thrown e, d')
    end.
(** a SELECT *)
Definition select {A} (f : S -> A) : M A := fun d => (Ok (f d), d).
(** an INSERT or UPDATE that the schema cannot refuse *)
Definition exec (f : S -> S) : M unit := fun d => (Ok tt, f d).
End Monad.
Arguments M S A : clear implicits.

Notation "'let*' x ':=' m 'in' k" := (bind m (fun x => k))
  (at level 10, x pattern, m at level 100, k at level 200).
Notation "m ';;' k" := (bind m (fun _ => k))
  (at level 100, k at level 200, right associativity).

(** A value bound to an INTEGER column must fit 32 bits. *)
Definition int4 (z : Z) : bool := (-2147483648 <=? z)%Z && (z <=? 2147483647)%Z.

End Handler.

(* ===================================================================== *)
(** * Part I: api/tenantsync.js                                           *)
(* ===================================================================== *)

Module TenantSync.
Import JS Handler.

(** The fields of a request are modelled at the JSON types the client
    protocol uses: an identifier is a well-formed UUID, [package_base64]
    and [chunk_data] are strings of base64 text (which holds no U+0000,
    the one character a TEXT column refuses), [chunk_index] and
    [total_chunks] are integer-valued numbers (or null, or absent), the
    manifest is any JSON value.  The counts and sums the database
    computes are exact integers. *)

(** Row identifiers are UUIDs; the handlers only compare them. *)
Definition uuid := N.

(** [manifest.components?.flows?.length || 0] *)
Definition manifest_flows (manifest : json) : json :=
  match get_prop (get_prop (get_prop (Some manifest) "components") "flows") "length" with
  | Some v => if truthy v then v else JNum 0
  | None => JNum 0
  end.

(** [chunk_index] and [total_chunks] are JSON numbers when present. *)
Inductive jsint :=
| Undefined
| Null
| Int (z : Z).

Definition truthy_int (i : jsint) : bool :=
  match i with
  | Int z => negb (z =? 0)%Z
  | _ => false
  end.

(** [i === 0] *)
Definition is_zero (i : jsint) : bool :=
  match i with
  | Int 0 => true
  | _ => false
  end.

(** ** Tables *)

Inductive queue_status := pending | processing | completed.
Inductive direction := inbound | outbound.

#[global] Instance queue_status_eq_dec : EqDecision queue_status.
Proof. solve_decision. Defined.
#[global] Instance direction_eq_dec : EqDecision direction.
Proof. solve_decision. Defined.

(** Modelled from the spec: the CREATE TABLE statements of [ts_customers],
    [ts_sync_pairs] and [ts_sync_queue] are not among the sources.  The
    records below hold the columns the handlers name in their queries;
    [created_at] is taken to default to NOW() and a row's [id] to be a
    primary key the database generates.  A queue entry is, in the spec's
    words, an owner id, a direction, a JSON manifest, a status and either
    an inline encoded blob or a chunk count. *)
Record customer := {
  cust_id : uuid;
  company_name : string;
  api_key_hash : string;
  subscription_status : string
}.

Record sync_pair := {
  pair_customer_id : uuid;
  pair_name : string
}.

Record queue_entry := {
  customer_id : uuid;
  sync_pair_id : uuid;
  q_direction : direction;
  manifest : json;
  status : queue_status;
  package_data : option string;
  package_size_bytes : Z;
  total_chunks : Z;
  chunks_received : Z;
  created_at : Z;
  processing_completed_at : option Z
}.

Inductive audit_details :=
| UploadReceived (queue_id : uuid) (has_package : bool) (package_size : Z) (flows : json)
| ChunkedUploadCompleted (queue_id : uuid) (total_chunks total_size : Z).

Record audit_row := {
  audit_customer_id : uuid;
  audit_sync_pair_id : option uuid;
  audit_action : string;
  audit_details_of : audit_details
}.

(** [ts_package_chunks] has UNIQUE(queue_id, chunk_index): a map from that
    pair to [chunk_data].  [ts_usage_metrics] is keyed by
    (customer_id, date) and holds [syncs_initiated]. *)
Record db := {
  ts_customers : list customer;
  ts_sync_pairs : gmap uuid sync_pair;
  ts_sync_queue : gmap uuid queue_entry;
  ts_package_chunks : gmap (uuid * Z) string;
  ts_usage_metrics : gmap (uuid * Z) Z;
  ts_audit_log : list audit_row
}.

Definition empty_db : db :=
  {| ts_customers := []; ts_sync_pairs := ∅; ts_sync_queue := ∅;
     ts_package_chunks := ∅; ts_usage_metrics := ∅; ts_audit_log := [] |}.

Definition set_queue (f : gmap uuid queue_entry -> gmap uuid queue_entry) (d : db) : db :=
  {| ts_customers := ts_customers d; ts_sync_pairs := ts_sync_pairs d;
     ts_sync_queue := f (ts_sync_queue d);
     ts_package_chunks := ts_package_chunks d;
     ts_usage_metrics := ts_usage_metrics d; ts_audit_log := ts_audit_log d |}.

Definition set_chunks (f : gmap (uuid * Z) string -> gmap (uuid * Z) string) (d : db) : db :=
  {| ts_customers := ts_customers d; ts_sync_pairs := ts_sync_pairs d;
     ts_sync_queue := ts_sync_queue d;
     ts_package_chunks := f (ts_package_chunks d);
     ts_usage_metrics := ts_usage_metrics d; ts_audit_log := ts_audit_log d |}.

Definition set_usage (f : gmap (uuid * Z) Z -> gmap (uuid * Z) Z) (d : db) : db :=
  {| ts_customers := ts_customers d; ts_sync_pairs := ts_sync_pairs d;
     ts_sync_queue := ts_sync_queue d;
     ts_package_chunks := ts_package_chunks d;
     ts_usage_metrics := f (ts_usage_metrics d); ts_audit_log := ts_audit_log d |}.

Definition add_audit (r : audit_row) (d : db) : db :=
  {| ts_customers := ts_customers d; ts_sync_pairs := ts_sync_pairs d;
     ts_sync_queue := ts_sync_queue d;
     ts_package_chunks := ts_package_chunks d;
     ts_usage_metrics := ts_usage_metrics d;
     ts_audit_log := ts_audit_log d ++ [r] |}.

(** ** Requests, responses, environment *)

Record body := {
  body_action : option string;
  body_sync_pair_id : option uuid;
  body_manifest : option json;
  package_base64 : option string;
  body_queue_id : option uuid;
  chunk_index : jsint;
  chunk_data : option string;
  body_total_chunks : jsint
}.

Record request := {
  method : string;
  query_action : option string;
  query_sync_pair_id : option uuid;
  x_api_key : option string;
  req_body : option body
}.

Inductive payload :=
| End
| Error (error : string)
| ErrorUnknownAction
| UploadAccepted (queue_id : uuid) (st : queue_status) (has_package : bool) (message : string)
| ChunkStored (index : Z) (received : Z) (total : option Z)
| UploadCompleted (queue_id : uuid) (total total_size_bytes : Z)
| NotAvailable
| Inline (queue_id : uuid) (m : json) (package : string) (size_bytes created : Z)
| Chunked (queue_id : uuid) (m : json) (total size_bytes created : Z)
| ManifestOnly (queue_id : uuid) (m : json) (created : Z).

Record response := { status_code : Z; json_body : payload }.

Inductive transfer_mode := inline | chunked | manifest_only.

(** The [transfer_mode] field of a download reply. *)
Definition transfer_mode_of (p : payload) : option transfer_mode :=
  match p with
  | Inline _ _ _ _ _ => Some inline
  | Chunked _ _ _ _ _ => Some chunked
  | ManifestOnly _ _ _ => Some manifest_only
  | _ => None
  end.

(** What the database supplies on its own: NOW(), CURRENT_DATE and the id
    of a row it creates. *)
Record env := { now : Z; today : Z; new_uuid : uuid }.

Definition reply (code : Z) (p : payload) : M db response :=
  ret {| status_code := code; json_body := p |}.

(** [const { ... } = req.body] throws a TypeError when there is no body. *)
Definition destructure (req : request) : M db body :=
  match req_body req with
  | Some b => ret b
  | None => throw "Cannot destructure property of 'req.body' as it is undefined."
  end.

(** Binding a request value to an INTEGER NOT NULL column. *)
Definition to_integer (i : jsint) : M db Z :=
  match i with
  | Int z => if int4 z then ret z else throw "integer out of range"
  | _ => throw "null value violates not-null constraint"
  end.

(** [async function logAudit(sql, customerId, syncPairId, action, details)] *)
Definition logAudit (customerId : uuid) (syncPairId : option uuid)
    (action : string) (details : audit_details) : M db unit :=
  exec (add_audit {| audit_customer_id := customerId; audit_sync_pair_id := syncPairId;
                     audit_action := action; audit_details_of := details |}).

(** Max inline package size (4MB base64 ~ 3MB binary); declared, and read
    by no handler. *)
Definition MAX_INLINE_SIZE : Z := 4 * 1024 * 1024.
Definition CHUNK_SIZE : Z := 3 * 1024 * 1024.

(** ** upload *)

Definition new_entry (e : env) (c : customer) (pid : uuid) (m : json)
    (blob : option string) : queue_entry :=
  {| customer_id := cust_id c;
     sync_pair_id := pid;
     q_direction := inbound;
     manifest := m;
     status := if given blob then completed else pending;
     package_data := if given blob then blob else None;
     package_size_bytes :=
       match blob with
       | Some s => if given blob then Z.of_nat (String.length s) else 0
       | None => 0
       end;
     total_chunks := 0;
     chunks_received := 0;
     created_at := now e;
     processing_completed_at := None |}.

(** INSERT INTO ts_sync_queue ... RETURNING id: the row gets the id the
    database generates; a primary key already in use is refused. *)
Definition insert_queue (e : env) (row : queue_entry) : M db uuid :=
  fun d =>
    match ts_sync_queue d !! new_uuid e with
    | None => (Ok (new_uuid e), set_queue (insert (new_uuid e) row) d)
    | Some _ => (Thrown "duplicate key value violates unique constraint", d)
    end.

(** INSERT INTO ts_usage_metrics ... ON CONFLICT (customer_id, date)
    DO UPDATE SET syncs_initiated = syncs_initiated + 1 *)
Definition bump_syncs_initiated (e : env) (c : customer) : M db unit :=
  exec (set_usage (fun u =>
    match u !! (cust_id c, today e) with
    | Some n => <[(cust_id c, today e) := n + 1]> u
    | None => <[(cust_id c, today e) := 1]> u
    end)).

Definition owns_pair (c : customer) (pid : uuid) (d : db) : bool :=
  match ts_sync_pairs d !! pid with
  | Some p => bool_decide (pair_customer_id p = cust_id c)
  | None => false
  end.

Definition handleUpload (e : env) (req : request) (c : customer) : M db response :=
  if negb (method req =? "POST") then reply 405 (Error "POST required") else
  let* b := destructure req in
  match body_sync_pair_id b, body_manifest b with
  | Some pid, Some m =>
      if negb (truthy m) then reply 400 (Error "sync_pair_id and manifest required") else
      let* found := select (owns_pair c pid) in
      if negb found then reply 404 (Error "Sync pair not found") else
      let packageSize :=
        match package_base64 b with
        | Some s => if given (package_base64 b) then Z.of_nat (String.length s) else 0
        | None => 0
        end in
      let* id := insert_queue e (new_entry e c pid m (package_base64 b)) in
      bump_syncs_initiated e c ;;
      logAudit (cust_id c) (Some pid) "sync_upload_received"
        (UploadReceived id (given (package_base64 b)) packageSize (manifest_flows m)) ;;
      reply 202
        (UploadAccepted id
           (if given (package_base64 b) then completed else pending)
           (given (package_base64 b))
           (if given (package_base64 b)
            then "Package stored successfully"
            else "Manifest queued (use upload-chunk for large packages)"))
  | _, _ => reply 400 (Error "sync_pair_id and manifest required")
  end.

(** ** upload-chunk *)

Definition owns_entry (c : customer) (q : uuid) (d : db) : bool :=
  match ts_sync_queue d !! q with
  | Some en => bool_decide (customer_id en = cust_id c)
  | None => false
  end.

(** The rows of [ts_package_chunks] with the given queue_id. *)
Definition chunks_of (q : uuid) (d : db) : list (uuid * Z * string) :=
  map_to_list (filter (fun kv => kv.1.1 = q) (ts_package_chunks d)).

(** SELECT COUNT( * ) FROM ts_package_chunks WHERE queue_id = q *)
Definition chunk_count (q : uuid) (d : db) : Z :=
  Z.of_nat (List.length (chunks_of q d)).

(** SELECT SUM(LENGTH(chunk_data)) ... WHERE queue_id = q, with [|| 0] for
    the NULL of an empty sum *)
Definition chunk_total_size (q : uuid) (d : db) : Z :=
  foldr (fun row acc => Z.of_nat (String.length row.2) + acc) 0 (chunks_of q d).

Definition mark_processing (total : Z) (en : queue_entry) : queue_entry :=
  {| customer_id := customer_id en; sync_pair_id := sync_pair_id en;
     q_direction := q_direction en; manifest := manifest en;
     status := processing;
     package_data := package_data en; package_size_bytes := package_size_bytes en;
     total_chunks := total;
     chunks_received := chunks_received en; created_at := created_at en;
     processing_completed_at := processing_completed_at en |}.

Definition set_chunks_received (n : Z) (en : queue_entry) : queue_entry :=
  {| customer_id := customer_id en; sync_pair_id := sync_pair_id en;
     q_direction := q_direction en; manifest := manifest en;
     status := status en;
     package_data := package_data en; package_size_bytes := package_size_bytes en;
     total_chunks := total_chunks en;
     chunks_received := n; created_at := created_at en;
     processing_completed_at := processing_completed_at en |}.

Definition handleUploadChunk (e : env) (req : request) (c : customer) : M db response :=
  if negb (method req =? "POST") then reply 405 (Error "POST required") else
  let* b := destructure req in
  match body_queue_id b, chunk_index b with
  | None, _ | _, Undefined =>
      reply 400 (Error "queue_id, chunk_index, chunk_data required")
  | Some q, idx =>
      if negb (given (chunk_data b))
      then reply 400 (Error "queue_id, chunk_index, chunk_data required") else
      let* found := select (owns_entry c q) in
      if negb found then reply 404 (Error "Queue entry not found") else
      (if truthy_int (body_total_chunks b) && is_zero idx
       then let* total := to_integer (body_total_chunks b) in
            exec (set_queue (alter (mark_processing total) q))
       else ret tt) ;;
      let* i := to_integer idx in
      exec (set_chunks (insert (q, i) (default "" (chunk_data b)))) ;;
      let* n := select (chunk_count q) in
      exec (set_queue (alter (set_chunks_received n) q)) ;;
      reply 200
        (ChunkStored i n
           (match body_total_chunks b with
            | Int z => if truthy_int (body_total_chunks b) then Some z else None
            | _ => None
            end))
  end.

(** ** upload-complete *)

Definition mark_completed (e : env) (n size : Z) (en : queue_entry) : queue_entry :=
  {| customer_id := customer_id en; sync_pair_id := sync_pair_id en;
     q_direction := q_direction en; manifest := manifest en;
     status := completed;
     package_data := package_data en; package_size_bytes := size;
     total_chunks := n;
     chunks_received := n; created_at := created_at en;
     processing_completed_at := Some (now e) |}.

Definition handleUploadComplete (e : env) (req : request) (c : customer) : M db response :=
  if negb (method req =? "POST") then reply 405 (Error "POST required") else
  let* b := destructure req in
  match body_queue_id b with
  | None => reply 400 (Error "queue_id required")
  | Some q =>
      let* queue := select (fun d =>
        match ts_sync_queue d !! q with
        | Some en => if bool_decide (customer_id en = cust_id c) then Some en else None
        | None => None
        end) in
      match queue with
      | None => reply 404 (Error "Queue entry not found")
      | Some en =>
          let* totalChunks := select (chunk_count q) in
          let* totalSize := select (chunk_total_size q) in
          exec (set_queue (alter (mark_completed e totalChunks totalSize) q)) ;;
          logAudit (cust_id c) (Some (sync_pair_id en)) "chunked_upload_completed"
            (ChunkedUploadCompleted q totalChunks totalSize) ;;
          reply 200 (UploadCompleted q totalChunks totalSize)
      end
  end.

(** ** download *)

(** The WHERE clause of the download query. *)
Definition ready_for (c : customer) (pid : uuid) (row : uuid * queue_entry) : bool :=
  bool_decide (customer_id row.2 = cust_id c)
  && bool_decide (sync_pair_id row.2 = pid)
  && bool_decide (q_direction row.2 = inbound)
  && bool_decide (status row.2 = completed).

(** ORDER BY created_at DESC LIMIT 1.  Among rows created at the same
    instant Postgres may return any; the model returns the first one in
    table order. *)
Definition latest (rows : list (uuid * queue_entry)) : option (uuid * queue_entry) :=
  foldr (fun row best =>
           match best with
           | Some b => if (created_at row.2 <? created_at b.2)%Z then Some b else Some row
           | None => Some row
           end) None rows.

Definition select_package (c : customer) (pid : uuid) (d : db) : option (uuid * queue_entry) :=
  latest (List.filter (ready_for c pid) (map_to_list (ts_sync_queue d))).

Definition handleDownload (e : env) (req : request) (c : customer) : M db response :=
  match query_sync_pair_id req with
  | None => reply 400 (Error "sync_pair_id required")
  | Some pid =>
      let* packages := select (select_package c pid) in
      match packages with
      | None => reply 200 NotAvailable
      | Some (id, pkg) =>
          let isChunked := (total_chunks pkg >? 0)%Z && negb (given (package_data pkg)) in
          if given (package_data pkg)
          then reply 200 (Inline id (manifest pkg) (default "" (package_data pkg))
                            (package_size_bytes pkg) (created_at pkg))
          else if isChunked
          then reply 200 (Chunked id (manifest pkg) (total_chunks pkg)
                            (package_size_bytes pkg) (created_at pkg))
          else reply 200 (ManifestOnly id (manifest pkg) (created_at pkg))
      end
  end.

(** ** The router and its API-key gate *)

(** The handlers of the relay that are not embedded here. *)
Record routes := {
  handleRegister : env -> request -> M db response;
  handleSetupChunksTable : env -> request -> M db response;
  handleStatus : env -> request -> customer -> M db response;
  handlePairs : env -> request -> customer -> M db response;
  handleCreatePair : env -> request -> customer -> M db response;
  handleDownloadChunk : env -> request -> customer -> M db response;
  handleConflicts : env -> request -> customer -> M db response;
  handleResolve : env -> request -> customer -> M db response;
  handleLedger : env -> request -> customer -> M db response;
  handleSyncComplete : env -> request -> customer -> M db response
}.

Section Router.

(** [crypto.createHash('sha256').update(apiKey).digest('hex')] *)
Variable hashApiKey : string -> string.
Variable other : routes.

Definition key_matches (hash : string) (c : customer) : bool :=
  (api_key_hash c =? hash)
  && ((subscription_status c =? "active") || (subscription_status c =? "trial")).

(** [return result[0] || null] *)
Definition validateApiKey (apiKey : string) : M db (option customer) :=
  select (fun d => head (List.filter (key_matches (hashApiKey apiKey)) (ts_customers d))).

(** [req.query.action || req.body?.action] *)
Definition action_of (req : request) : option string :=
  if given (query_action req) then query_action req
  else match req_body req with
       | Some b => body_action b
       | None => None
       end.

Definition is_action (a : option string) (name : string) : bool :=
  match a with
  | Some s => s =? name
  | None => false
  end.

Definition dispatch (e : env) (req : request) (c : customer) (a : option string)
    : M db response :=
  if is_action a "status" then handleStatus other e req c
  else if is_action a "pairs" then handlePairs other e req c
  else if is_action a "create-pair" then handleCreatePair other e req c
  else if is_action a "upload" then handleUpload e req c
  else if is_action a "upload-chunk" then handleUploadChunk e req c
  else if is_action a "upload-complete" then handleUploadComplete e req c
  else if is_action a "download" then handleDownload e req c
  else if is_action a "download-chunk" then handleDownloadChunk other e req c
  else if is_action a "conflicts" then handleConflicts other e req c
  else if is_action a "resolve" then handleResolve other e req c
  else if is_action a "ledger" then handleLedger other e req c
  else if is_action a "sync-complete" then handleSyncComplete other e req c
  else reply 400 ErrorUnknownAction.

(** The body of the [try] block of [handler]. *)
Definition route (e : env) (req : request) : M db response :=
  let action := action_of req in
  if is_action action "register" then handleRegister other e req
  else if is_action action "setup-chunks-table" then handleSetupChunksTable other e req
  else
    if negb (given (x_api_key req)) then reply 401 (Error "API key required") else
    let* customer := validateApiKey (default "" (x_api_key req)) in
    match customer with
    | None => reply 401 (Error "Invalid API key")
    | Some c => dispatch e req c action
    end.

(** [export default async function handler(req, res)]: the preflight
    reply, and the [catch] that turns a thrown error into a 500. *)
Definition handler (e : env) (req : request) (d : db) : response * db :=
  if method req =? "OPTIONS" then ({| status_code := 200; json_body := End |}, d)
  else
    match route e req d with
    | (Ok r, d') => (r, d')
    | (Thrown message, d') => ({| status_code := 500; json_body := Error message |}, d')
    end.

End Router.

(** ** Sequences of upload operations

    One authenticated call to one of the three upload handlers; its effect
    on the database is whatever the handler wrote, also when it ended in
    an error reply or threw. *)
Inductive op :=
| Upload (e : env) (req : request) (c : customer)
| UploadChunk (e : env) (req : request) (c : customer)
| UploadComplete (e : env) (req : request) (c : customer).

Definition run_op (o : op) : M db response :=
  match o with
  | Upload e req c => handleUpload e req c
  | UploadChunk e req c => handleUploadChunk e req c
  | UploadComplete e req c => handleUploadComplete e req c
  end.

Definition apply_op (d : db) (o : op) : db := (run_op o d).2.

Definition apply_ops (ops : list op) (d : db) : db := foldl apply_op d ops.

End TenantSync.

(* ===================================================================== *)
(** * Part II: api/generate-flow-protected.js                             *)
(* ===================================================================== *)

Module GenerateFlow.
Import JS Handler.

Definition uuid := N.

(** ** Tables (the columns the handler reads or writes)

    The columns are those of the schema: [flow_name] is VARCHAR(255),
    [generated_json] is JSONB and may be NULL, [tokens_used] and the two
    counters of a user are INTEGER, [generation_time_seconds] is
    DECIMAL(10,2).  Texts are taken to hold no U+0000. *)

Record user := {
  subscription_tier : option string;
  flows_generated_this_month : option Z;
  total_flows_generated : option Z;
  updated_at : Z
}.

Record flow := {
  flow_user_id : uuid;
  flow_name : string;
  flow_prompt : string;
  generated_json : option json;
  tokens_used : Z;
  generation_time_seconds : Q;
  success : bool
}.

Inductive log_metadata :=
| FlowGenerated (flowId : uuid) (tokensUsed : Z) (generationTime : Q)
| GenerationError (error : string) (prompt : option string).

Record usage_log := {
  log_user_id : option uuid;
  action_type : string;
  metadata : log_metadata
}.

(** The database, together with the requests sent to the LLM API so far. *)
Record world := {
  users : gmap uuid user;
  flows : gmap uuid flow;
  usage_logs : list usage_log;
  llm_requests : list (string * option string)
}.

Definition set_users (f : gmap uuid user -> gmap uuid user) (w : world) : world :=
  {| users := f (users w); flows := flows w; usage_logs := usage_logs w;
     llm_requests := llm_requests w |}.
Definition set_flows (f : gmap uuid flow -> gmap uuid flow) (w : world) : world :=
  {| users := users w; flows := f (flows w); usage_logs := usage_logs w;
     llm_requests := llm_requests w |}.
Definition add_log (l : usage_log) (w : world) : world :=
  {| users := users w; flows := flows w; usage_logs := usage_logs w ++ [l];
     llm_requests := llm_requests w |}.
Definition add_llm_request (r : string * option string) (w : world) : world :=
  {| users := users w; flows := flows w; usage_logs := usage_logs w;
     llm_requests := llm_requests w ++ [r] |}.

(** ** Requests, responses, environment *)

Record body := {
  prompt : option string;
  flowName : option string;
  userId : option uuid
}.

Record request := { method : string; req_body : option body }.

(** A JavaScript number that is an integer, or NaN. *)
Inductive number := Num (z : Z) | NaN.

(** The value of [limit]: a number, or something inherited from
    [Object.prototype]. *)
Inductive limit_value := Limit (z : Z) | Inherited (name : string).

Inductive payload :=
| End
| Error (error : string)
| UsageLimitExceeded (limit : limit_value) (used : option Z) (tier : option string)
| ClaudeApiError (status : Z) (details : string)
| InvalidJson (rawResponse : string)
| InternalError (message : string)
| Generated (flow_json : json) (rawJson : string) (tier : option string)
    (limit : limit_value) (used remaining : number) (tokensUsed : Z) (generationTime : Q).

Record response := { status_code : Z; json_body : payload }.

Record content_block := { block_type : string; block_text : option string }.

(** What [fetch] and [response.json()] yield. *)
Inductive llm_reply :=
| Rejected (message : string)
| NotOk (status : Z) (errorData : string)
| Content (content : list content_block).

(** [read_jsonb v] is what the database reads, as JSONB, from a JSON
    text that denotes [v]: the value it stores, or the error it raises
    (it refuses some texts that JSON.parse accepts).  [elapsed_ms] is
    [Date.now() - startTime]. *)
Record env := {
  ANTHROPIC_API_KEY : option string;
  fetch_messages : string -> option string -> llm_reply;
  read_jsonb : json -> result json;
  elapsed_ms : Z;
  new_flow_id : uuid;
  CURRENT_TIMESTAMP : Z
}.

(** ** The usage limit *)

(** [const limits = { free: 3, pro: 50, enterprise: 999999 }] *)
Definition limits : list (string * Z) :=
  [("free", 3); ("pro", 50); ("enterprise", 999999)].

Fixpoint own_property (k : string) (o : list (string * Z)) : option Z :=
  match o with
  | [] => None
  | (k', v) :: rest => if k' =? k then Some v else own_property k rest
  end.

(** The property names an object literal inherits from [Object.prototype];
    each holds a function or an object, hence is truthy and converts to
    NaN. *)
Definition Object_prototype : list string :=
  [ "constructor"; "toString"; "toLocaleString"; "valueOf"; "hasOwnProperty";
    "isPrototypeOf"; "propertyIsEnumerable"; "__proto__"; "__defineGetter__";
    "__defineSetter__"; "__lookupGetter__"; "__lookupSetter__" ].

(** [limits[user.subscription_tier] || 3]; a NULL tier reads the property
    ["null"]. *)
Definition limit_of (tier : option string) : limit_value :=
  let key := default "null" tier in
  match own_property key limits with
  | Some z => if (z =? 0)%Z then Limit 3 else Limit z
  | None => if existsb (String.eqb key) Object_prototype then Inherited key else Limit 3
  end.

(** [limit - user.flows_generated_this_month]; NULL converts to 0. *)
Definition remaining_of (limit : limit_value) (used : option Z) : number :=
  match limit with
  | Limit z => Num (z - default 0 used)
  | Inherited _ => NaN
  end.

(** [remaining <= 0] *)
Definition exhausted (remaining : number) : bool :=
  match remaining with
  | Num z => (z <=? 0)%Z
  | NaN => false
  end.

Definition number_add (n : number) (k : Z) : number :=
  match n with
  | Num z => Num (z + k)
  | NaN => NaN
  end.

(** ** Cleaning the reply *)

Definition drop_newline (s : string) : string :=
  match s with
  | String "010"%char rest => rest
  | _ => s
  end.

Definition drop_prefix (p s : string) : string :=
  substring (String.length p) (String.length s - String.length p) s.

(** [s.replace(/```$/, '')] *)
Definition drop_fence_at_end (s : string) : string :=
  let n := String.length s in
  if (3 <=? n)%nat && (substring (n - 3) 3 s =? "```")
  then substring 0 (n - 3) s else s.

Section Handler.

(** [String.prototype.trim] and [JSON.parse] *)
Variable trim : string -> string.
Variable JSON_parse : string -> option json.

Definition clean (flowJson : string) : string :=
  let cleanJson := trim flowJson in
  if String.prefix "```json" cleanJson
  then trim (drop_fence_at_end (drop_newline (drop_prefix "```json" cleanJson)))
  else if String.prefix "```" cleanJson
  then trim (drop_fence_at_end (drop_newline (drop_prefix "```" cleanJson)))
  else cleanJson.

Definition reply (code : Z) (p : payload) : M world response :=
  ret {| status_code := code; json_body := p |}.

(** [(Date.now() - startTime) / 1000] *)
Definition generationTime (e : env) : Q := Qmake (elapsed_ms e) 1000.

(** A string stored in a VARCHAR(255) column: characters after the 255th
    are dropped when they are all spaces, and refused otherwise. *)
Definition varchar_255 (s : string) : option string :=
  if (String.length s <=? 255)%nat then Some s
  else if forallb (Ascii.eqb " ")
            (list_ascii_of_string (substring 255 (String.length s - 255) s))
  then Some (substring 0 255 s)
  else None.

(** Milliseconds as seconds in a DECIMAL(10,2) column: rounded to
    hundredths, half away from zero, and refused from 10^8 seconds on. *)
Definition hundredths (ms : Z) : Z :=
  if (0 <=? ms)%Z then (ms + 5) / 10 else - ((- ms + 5) / 10).

Definition decimal_10_2 (ms : Z) : option Q :=
  if (Z.abs (hundredths ms) <? 10 ^ 10)%Z then Some (Qmake (hundredths ms) 100) else None.

(** The parameter [parsed] of the INSERT, bound to the JSONB column by
    node-postgres: null is sent as NULL; an array is sent as an array
    literal in braces, which is JSON text only when the array is empty
    (and is the empty object then); a string is sent as it is and must
    itself be JSON text (what JSON.parse refuses, the database refuses
    too); a number, a boolean and an object are sent as their JSON
    text. *)
Definition bind_jsonb (e : env) (parsed : json) : result (option json) :=
  let read v :=
    match read_jsonb e v with
    | Ok stored => Ok (Some stored)
    | Thrown message => Thrown message
    end in
  match parsed with
  | JNull => Ok None
  | JArr [] => Ok (Some (JObj []))
  | JArr (_ :: _) => Thrown "invalid input syntax for type json"
  | JStr s =>
      match JSON_parse s with
      | Some v => read v
      | None => Thrown "invalid input syntax for type json"
      end
  | JBool _ | JNum _ | JObj _ => read parsed
  end.

(** INSERT INTO flows (user_id, flow_name, prompt, generated_json,
    tokens_used, generation_time_seconds, success) ... RETURNING id.
    The parameters are read when they are bound ([generated_json] as
    JSONB, [tokens_used] as INTEGER; no JavaScript string is long enough
    for the latter to fail), then the row is built ([flow_name],
    [generation_time_seconds]) and stored under the id the database
    generates. *)
Definition insert_flow (e : env) (id : uuid) (name p : string) (parsed : json)
    (tokens : Z) : M world uuid :=
  fun w =>
    match bind_jsonb e parsed with
    | Thrown message => (Thrown message, w)
    | Ok stored =>
        if negb (int4 tokens) then (Thrown "integer out of range", w) else
        match varchar_255 name with
        | None => (Thrown "value too long for type character varying(255)", w)
        | Some stored_name =>
            match decimal_10_2 (elapsed_ms e) with
            | None => (Thrown "numeric field overflow", w)
            | Some seconds =>
                match flows w !! new_flow_id e with
                | Some _ => (Thrown "duplicate key value violates unique constraint", w)
                | None =>
                    (Ok (new_flow_id e),
                     set_flows
                       (insert (new_flow_id e)
                          {| flow_user_id := id; flow_name := stored_name;
                             flow_prompt := p; generated_json := stored;
                             tokens_used := tokens;
                             generation_time_seconds := seconds;
                             success := true |}) w)
                end
            end
        end
    end.

Definition bump (n : option Z) : option Z := (fun z => z + 1) <$> n.

Definition count_flow (e : env) (u : user) : user :=
  {| subscription_tier := subscription_tier u;
     flows_generated_this_month := bump (flows_generated_this_month u);
     total_flows_generated := bump (total_flows_generated u);
     updated_at := CURRENT_TIMESTAMP e |}.

Definition fits (n : option Z) : bool :=
  match n with
  | Some z => int4 z
  | None => true
  end.

(** UPDATE users SET flows_generated_this_month = ... + 1,
    total_flows_generated = ... + 1 WHERE id = $1; both columns are
    INTEGER. *)
Definition increment_flow_count (e : env) (id : uuid) : M world unit :=
  fun w =>
    match users w !! id with
    | Some u =>
        if fits (bump (flows_generated_this_month u))
           && fits (bump (total_flows_generated u))
        then (Ok tt, set_users (insert id (count_flow e u)) w)
        else (Thrown "integer out of range", w)
    | None => (Ok tt, w)
    end.

Definition log_usage (id : option uuid) (action : string) (m : log_metadata)
    : M world unit :=
  exec (add_log {| log_user_id := id; action_type := action; metadata := m |}).

(** [await fetch('https://api.anthropic.com/v1/messages', ...)] *)
Definition call_llm (e : env) (p : string) (name : option string) : M world llm_reply :=
  fun w => (Ok (fetch_messages e p name), add_llm_request (p, name) w).

(** [data.content.find(c => c.type === 'text')?.text] *)
Definition first_text (content : list content_block) : option string :=
  match List.find (fun c => block_type c =? "text") content with
  | Some c => block_text c
  | None => None
  end.

(** The body of the [try] block. *)
Definition generate (e : env) (req : request) : M world response :=
  match req_body req with
  | None => throw "Cannot destructure property 'prompt' of 'req.body' as it is undefined."
  | Some b =>
      if negb (given (prompt b)) || (String.length (trim (default "" (prompt b))) =? 0)%nat
      then reply 400 (Error "Prompt is required") else
      match userId b with
      | None => reply 401 (Error "User ID required")
      | Some id =>
          let* userResult := select (fun w => users w !! id) in
          match userResult with
          | None => reply 404 (Error "User not found")
          | Some user =>
              let limit := limit_of (subscription_tier user) in
              let remaining := remaining_of limit (flows_generated_this_month user) in
              if exhausted remaining
              then reply 429 (UsageLimitExceeded limit (flows_generated_this_month user)
                                (subscription_tier user)) else
              if negb (given (ANTHROPIC_API_KEY e))
              then reply 500 (Error "API key not configured") else
              let p := default "" (prompt b) in
              let* fetched := call_llm e p (flowName b) in
              match fetched with
              | Rejected message => throw message
              | NotOk status errorData => reply status (ClaudeApiError status errorData)
              | Content content =>
                  if negb (given (first_text content))
                  then reply 500 (Error "No flow JSON returned from Claude") else
                  let flowJson := default "" (first_text content) in
                  let cleanJson := clean flowJson in
                  match JSON_parse cleanJson with
                  | None => reply 500 (InvalidJson (substring 0 500 cleanJson))
                  | Some parsed =>
                      let tokensUsed :=
                        (Z.of_nat (String.length p + String.length flowJson) + 3) / 4 in
                      let* flowId :=
                        insert_flow e id
                          (if given (flowName b) then default "" (flowName b)
                           else "Untitled Flow")
                          p parsed tokensUsed in
                      increment_flow_count e id ;;
                      log_usage (Some id) "flow_generated"
                        (FlowGenerated flowId tokensUsed (generationTime e)) ;;
                      reply 200
                        (Generated parsed cleanJson (subscription_tier user) limit
                           (Num (default 0 (flows_generated_this_month user) + 1))
                           (number_add remaining (-1))
                           tokensUsed (generationTime e))
                  end
              end
          end
      end
  end.

(** The [catch] block: the error is logged when the insert is possible
    (req.body exists and its userId, if any, names a user), then
    answered with a 500. *)
Definition log_error (req : request) (message : string) (w : world) : world :=
  match req_body req with
  | None => w
  | Some b =>
      let row := {| log_user_id := userId b; action_type := "flow_generation_error";
                    metadata := GenerationError message
                                  (substring 0 100 <$> prompt b) |} in
      match userId b with
      | None => add_log row w
      | Some id => if bool_decide (is_Some (users w !! id)) then add_log row w else w
      end
  end.

(** [export default async function handler(req, res)] *)
Definition handler (e : env) (req : request) (w : world) : response * world :=
  if method req =? "OPTIONS" then ({| status_code := 200; json_body := End |}, w)
  else if negb (method req =? "POST")
  then ({| status_code := 405; json_body := Error "Method not allowed" |}, w)
  else
    match generate e req w with
    | (Ok r, w') => (r, w')
    | (Thrown message, w') =>
        ({| status_code := 500; json_body := InternalError message |},
         log_error req message w')
    end.

End Handler.

End GenerateFlow.

(* ===================================================================== *)
(** * Part III: the rest of the relay and of the usage helpers            *)
(* ===================================================================== *)

(** ** download-chunk (api/tenantsync.js) *)

Module DownloadChunk.
Import JS Handler TenantSync.

(** [req.query] of a download-chunk request; the values of a query string
    are strings. *)
Record chunk_query := {
  query_queue_id : option uuid;
  query_chunk_index : option string
}.

Inductive chunk_payload :=
| ChunkError (error : string)
| ChunkData (queue_id : uuid) (index : Z) (data : string).

Record chunk_response := { chunk_status : Z; chunk_body : chunk_payload }.

Section ParseInt.

(** [parseInt]; [None] is NaN. *)
Variable parseInt : string -> option Z.

(** Binding [parseInt(chunk_index)] to the INTEGER column in the WHERE
    clause: NaN is no integer, and a number outside 32 bits is refused. *)
Definition index_parameter (index : string) : M db Z :=
  match parseInt index with
  | Some z => if int4 z then ret z else throw "value out of range for type integer"
  | None => throw "invalid input syntax for type integer: NaN"
  end.

Definition handleDownloadChunk (query : chunk_query) (c : customer) : M db chunk_response :=
  match query_queue_id query, query_chunk_index query with
  | Some q, Some index =>
      let* found := select (owns_entry c q) in
      if negb found
      then ret {| chunk_status := 404; chunk_body := ChunkError "Queue entry not found" |}
      else
      let* i := index_parameter index in
      let* chunk := select (fun d => ts_package_chunks d !! (q, i)) in
      match chunk with
      | None => ret {| chunk_status := 404; chunk_body := ChunkError "Chunk not found" |}
      | Some data => ret {| chunk_status := 200; chunk_body := ChunkData q i data |}
      end
  | _, _ =>
      ret {| chunk_status := 400;
             chunk_body := ChunkError "queue_id and chunk_index required" |}
  end.

End ParseInt.

End DownloadChunk.

(** ** checkUsageLimit and incrementFlowCount (api/middleware/auth.js) *)

Module UsageLimit.
Import JS Handler GenerateFlow.

Record usage := {
  usage_tier : option string;
  usage_limit : limit_value;
  usage_used : option Z;
  usage_remaining : number;
  canGenerate : bool
}.

(** [remaining > 0] *)
Definition positive (remaining : number) : bool :=
  match remaining with
  | Num z => (0 <? z)%Z
  | NaN => false
  end.

(** [export async function checkUsageLimit(userId)] *)
Definition checkUsageLimit (userId : uuid) : M world usage :=
  let* row := select (fun w => users w !! userId) in
  match row with
  | None => throw "User not found"
  | Some user =>
      let limit := limit_of (subscription_tier user) in
      let remaining := remaining_of limit (flows_generated_this_month user) in
      ret {| usage_tier := subscription_tier user;
             usage_limit := limit;
             usage_used := flows_generated_this_month user;
             usage_remaining := remaining;
             canGenerate := positive remaining |}
  end.

(** [export async function incrementFlowCount(userId)]: the UPDATE of the
    two counters, without [updated_at]. *)
Definition incrementFlowCount (userId : uuid) : M world unit :=
  fun w =>
    match users w !! userId with
    | Some u =>
        if fits (bump (flows_generated_this_month u)) && fits (bump (total_flows_generated u))
        then (Ok tt,
              set_users (insert userId
                           {| subscription_tier := subscription_tier u;
                              flows_generated_this_month := bump (flows_generated_this_month u);
                              total_flows_generated := bump (total_flows_generated u);
                              updated_at := updated_at u |}) w)
        else (Thrown "integer out of range", w)
    | None => (Ok tt, w)
    end.

End UsageLimit.

(* ===================================================================== *)
(** * Properties of the relay                                             *)
(* ===================================================================== *)

Module TenantSyncSpec.
Import JS Handler TenantSync.

Local Arguments truthy_int : simpl never.
Local Arguments is_zero : simpl never.
Local Arguments int4 : simpl never.
Local Arguments given : simpl never.
Local Arguments chunk_count : simpl never.
Local Arguments chunk_total_size : simpl never.

Ltac unfold_monad :=
  unfold reply, destructure, logAudit, bump_syncs_initiated, insert_queue,
    to_integer in *;
  unfold bind, ret, throw, select, exec in *.

(** ** What an accepted call writes *)

Definition code_of (r : result response) : option Z :=
  match r with
  | Ok resp => Some (status_code resp)
  | Thrown _ => None
  end.

(** The database after an accepted upload-chunk: the two or three writes
    of the handler, in order. *)
Definition declare_total (q : uuid) (idx total : jsint) (d : db) : db :=
  match total with
  | Int t => if truthy_int total && is_zero idx
             then set_queue (alter (mark_processing t) q) d else d
  | _ => d
  end.

Definition store_chunk (q : uuid) (i : Z) (data : string) (d : db) : db :=
  set_chunks (insert (q, i) data) d.

Definition recount (q : uuid) (d : db) : db :=
  set_queue (alter (set_chunks_received (chunk_count q d)) q) d.

Definition chunk_applied (q : uuid) (i : Z) (data : string) (total : jsint) (d : db) : db :=
  recount q (store_chunk q i data (declare_total q (Int i) total d)).

(** The conditions under which the handler gets as far as storing the
    chunk. *)
Definition chunk_accepted (req : request) (c : customer) (d : db)
    (b : body) (q : uuid) (i : Z) (data : string) : Prop :=
  method req = "POST"
  /\ req_body req = Some b
  /\ body_queue_id b = Some q
  /\ chunk_index b = Int i
  /\ int4 i = true
  /\ chunk_data b = Some data
  /\ data <> ""
  /\ owns_entry c q d = true
  /\ (truthy_int (body_total_chunks b) && is_zero (Int i) = true ->
      exists t, body_total_chunks b = Int t /\ int4 t = true).

(** What an accepted upload-chunk does to the row of its queue entry. *)
Definition chunk_entry (i : Z) (total : jsint) (n : Z) (en : queue_entry) : queue_entry :=
  set_chunks_received n
    (match total with
     | Int t => if truthy_int total && is_zero (Int i) then mark_processing t en else en
     | _ => en
     end).

Definition complete_applied (e : env) (c : customer) (q : uuid) (en : queue_entry)
    (d : db) : db :=
  add_audit
    {| audit_customer_id := cust_id c;
       audit_sync_pair_id := Some (sync_pair_id en);
       audit_action := "chunked_upload_completed";
       audit_details_of :=
         ChunkedUploadCompleted q (chunk_count q d) (chunk_total_size q d) |}
    (set_queue
       (alter (mark_completed e (chunk_count q d) (chunk_total_size q d)) q) d).

Definition complete_accepted (req : request) (c : customer) (d : db)
    (q : uuid) (en : queue_entry) : Prop :=
  method req = "POST"
  /\ (exists b, req_body req = Some b /\ body_queue_id b = Some q)
  /\ ts_sync_queue d !! q = Some en
  /\ customer_id en = cust_id c.

(** The same request carrying other chunk data. *)
Definition with_chunk_data (data : string) (req : request) : request :=
  {| method := method req; query_action := query_action req;
     query_sync_pair_id := query_sync_pair_id req; x_api_key := x_api_key req;
     req_body :=
       (fun b => {| body_action := body_action b;
                    body_sync_pair_id := body_sync_pair_id b;
                    body_manifest := body_manifest b;
                    package_base64 := package_base64 b;
                    body_queue_id := body_queue_id b;
                    chunk_index := chunk_index b;
                    chunk_data := Some data;
                    body_total_chunks := body_total_chunks b |}) <$> req_body req |}.

(** [rows] lists the chunks stored for entry [q], each once: the index
    and the data of every row of [ts_package_chunks] whose queue_id is
    [q], and nothing else. *)
Definition stored_chunks (d : db) (q : uuid) (rows : list (Z * string)) : Prop :=
  NoDup rows
  /\ forall i data, (i, data) ∈ rows <-> ts_package_chunks d !! (q, i) = Some data.

(** The sum of the lengths of their data. *)
Definition total_length (rows : list (Z * string)) : Z :=
  foldr (fun row acc => Z.of_nat (String.length row.2) + acc) 0 rows.

(** The database after an accepted upload-complete of entry [q], which
    was [en], when [n] chunks of [size] characters in total are stored
    for it. *)
Definition completed_with (e : env) (c : customer) (q : uuid) (en : queue_entry)
    (n size : Z) (d : db) : db :=
  add_audit
    {| audit_customer_id := cust_id c;
       audit_sync_pair_id := Some (sync_pair_id en);
       audit_action := "chunked_upload_completed";
       audit_details_of := ChunkedUploadCompleted q n size |}
    (set_queue (insert q (mark_completed e n size en)) d).

(** A row that the download query of customer [c] for pair [pid] matches. *)
Definition ready (c : customer) (pid : uuid) (pkg : queue_entry) : Prop :=
  customer_id pkg = cust_id c
  /\ sync_pair_id pkg = pid
  /\ q_direction pkg = inbound
  /\ status pkg = completed.

(** ** Sequences of operations *)

(** The queue entry an upload-chunk or upload-complete request names. *)
Definition target (o : op) : option uuid :=
  match o with
  | Upload _ _ _ => None
  | UploadChunk _ req _ | UploadComplete _ req _ =>
      match req_body req with
      | Some b => body_queue_id b
      | None => None
      end
  end.

(** An upload-chunk request with chunk_index 0 and a truthy total_chunks. *)
Definition first_chunk (o : op) : bool :=
  match o with
  | UploadChunk _ req _ =>
      match req_body req with
      | Some b => truthy_int (body_total_chunks b) && is_zero (chunk_index b)
      | None => false
      end
  | _ => false
  end.

(** The chunk_index an upload-chunk request carries, when it is a number. *)
Definition sent_index (o : op) : option Z :=
  match o with
  | UploadChunk _ req _ =>
      match req_body req with
      | Some b => match chunk_index b with
                  | Int i => Some i
                  | _ => None
                  end
      | None => None
      end
  | _ => None
  end.

(** What one operation does to the queue and chunk tables. *)
Inductive op_effect (o : op) (d d' : db) : Prop :=
| no_write :
    ts_sync_queue d' = ts_sync_queue d ->
    ts_package_chunks d' = ts_package_chunks d ->
    op_effect o d d'
| entry_created id e c pid m blob :
    ts_sync_queue d !! id = None ->
    ts_sync_queue d' = <[id := new_entry e c pid m blob]> (ts_sync_queue d) ->
    ts_package_chunks d' = ts_package_chunks d ->
    op_effect o d d'
| chunk_stored e req c q en i data declared n :
    o = UploadChunk e req c ->
    code_of (handleUploadChunk e req c d).1 = Some 200 ->
    target o = Some q ->
    ts_sync_queue d !! q = Some en ->
    ts_sync_queue d' =
      <[q := set_chunks_received n
               (if first_chunk o then mark_processing declared en else en)]>
        (ts_sync_queue d) ->
    ts_package_chunks d' = <[(q, i) := data]> (ts_package_chunks d) ->
    op_effect o d d'
| entry_completed q en e n size :
    target o = Some q ->
    ts_sync_queue d !! q = Some en ->
    n = chunk_count q d ->
    ts_sync_queue d' = <[q := mark_completed e n size en]> (ts_sync_queue d) ->
    ts_package_chunks d' = ts_package_chunks d ->
    op_effect o d d'.

(** [never bad ops d]: no operation of the sequence is [bad] in the state
    it runs in. *)
Fixpoint never (bad : op -> db -> bool) (ops : list op) (d : db) : Prop :=
  match ops with
  | [] => True
  | o :: rest => bad o d = false /\ never bad rest (apply_op d o)
  end.

Definition rank (s : queue_status) : nat :=
  match s with
  | pending => 0
  | processing => 1
  | completed => 2
  end.

(** A first chunk addressed to an entry that is completed. *)
Definition reopens (o : op) (d : db) : bool :=
  first_chunk o
  && match target o with
     | Some q => match ts_sync_queue d !! q with
                 | Some en => bool_decide (status en = completed)
                 | None => false
                 end
     | None => false
     end.






(** ** Claims in the words of the specification *)



(** C5 as stated: no sequence of operations moves a status backwards. *)
Definition status_only_advances : Prop :=
  forall ops d q en en',
    ts_sync_queue d !! q = Some en ->
    ts_sync_queue (apply_ops ops d) !! q = Some en' ->
    (rank (status en) <= rank (status en'))%nat.

(** C8 as stated: an upload-chunk call only ever stores non-negative
    indices. *)
Definition stores_only_nonnegative_indices : Prop :=
  forall e req c d,
    (forall q i, is_Some (ts_package_chunks d !! (q, i)) -> 0 <= i) ->
    forall q i,
      is_Some (ts_package_chunks (handleUploadChunk e req c d).2 !! (q, i)) -> 0 <= i.

(** C9 as stated: whatever string package_base64 holds, the blob is stored
    inline and the entry is completed. *)
Definition stores_every_string_inline : Prop :=
  forall e req c d b pid m blob,
    method req = "POST" ->
    req_body req = Some b ->
    body_sync_pair_id b = Some pid ->
    body_manifest b = Some m ->
    truthy m = true ->
    owns_pair c pid d = true ->
    ts_sync_queue d !! new_uuid e = None ->
    package_base64 b = Some blob ->
    exists en,
      ts_sync_queue (handleUpload e req c d).2 !! new_uuid e = Some en
      /\ package_data en = Some blob
      /\ status en = completed.

(** ** Sample data *)

Definition acme : customer :=
  {| cust_id := 1%N; company_name := "Acme"; api_key_hash := "5e88";
     subscription_status := "active" |}.

Definition db0 : db :=
  {| ts_customers := [acme];
     ts_sync_pairs := {[ 7%N := {| pair_customer_id := 1%N; pair_name := "prod" |} ]};
     ts_sync_queue := ∅; ts_package_chunks := ∅; ts_usage_metrics := ∅;
     ts_audit_log := [] |}.

Definition at_time (t : Z) (id : uuid) : env :=
  {| now := t; today := 20000; new_uuid := id |}.

Definition post (b : body) : request :=
  {| method := "POST"; query_action := None; query_sync_pair_id := None;
     x_api_key := None; req_body := Some b |}.

Definition upload_of (blob : option string) : request :=
  post {| body_action := None; body_sync_pair_id := Some 7%N;
          body_manifest := Some (JObj [("components", JObj [("flows", JArr [JStr "f1"])])]);
          package_base64 := blob; body_queue_id := None; chunk_index := Undefined;
          chunk_data := None; body_total_chunks := Undefined |}.

Definition chunk_of (q : uuid) (i : jsint) (data : string) (total : jsint) : request :=
  post {| body_action := None; body_sync_pair_id := None; body_manifest := None;
          package_base64 := None; body_queue_id := Some q; chunk_index := i;
          chunk_data := Some data; body_total_chunks := total |}.

Definition complete_of (q : uuid) : request :=
  post {| body_action := None; body_sync_pair_id := None; body_manifest := None;
          package_base64 := None; body_queue_id := Some q; chunk_index := Undefined;
          chunk_data := None; body_total_chunks := Undefined |}.

Definition download_of (pid : uuid) : request :=
  {| method := "GET"; query_action := Some "download"; query_sync_pair_id := Some pid;
     x_api_key := None; req_body := None |}.

(** A manifest was queued under id 50 and two chunks were sent for it, the
    first one declaring five chunks in total. *)
Definition db_two_chunks : db :=
  apply_ops
    [ Upload (at_time 100 50%N) (upload_of None) acme;
      UploadChunk (at_time 101 0%N) (chunk_of 50%N (Int 0) "AAAA" (Int 5)) acme;
      UploadChunk (at_time 102 0%N) (chunk_of 50%N (Int 1) "BBB" Undefined) acme ]
    db0.

(** An inline package under id 50, then a chunked one under id 51. *)
Definition db_inline_then_chunked : db :=
  apply_ops
    [ Upload (at_time 100 50%N) (upload_of (Some "UEsDBA==")) acme;
      Upload (at_time 200 51%N) (upload_of None) acme;
      UploadChunk (at_time 201 0%N) (chunk_of 51%N (Int 0) "AAAA" (Int 1)) acme;
      UploadComplete (at_time 202 0%N) (complete_of 51%N) acme ]
    db0.

Definition db_two_uploads : db :=
  apply_ops
    [ Upload (at_time 100 50%N) (upload_of (Some "UEsDBA==")) acme;
      Upload (at_time 200 51%N) (upload_of None) acme ]
    db0.

Definition chunk_then_complete : list op :=
  [ UploadChunk (at_time 201 0%N) (chunk_of 51%N (Int 0) "AAAA" (Int 1)) acme;
    UploadComplete (at_time 202 0%N) (complete_of 51%N) acme ].


(** A manifest queued under id 50, then chunks sent with the indices -1
    and 3. *)
Definition chunks_minus_one_and_three : list op :=
  [ Upload (at_time 100 50%N) (upload_of None) acme;
    UploadChunk (at_time 101 0%N) (chunk_of 50%N (Int (-1)) "AAAA" Undefined) acme;
    UploadChunk (at_time 102 0%N) (chunk_of 50%N (Int 3) "BBB" Undefined) acme ].


Definition not_embedded : routes :=
  {| handleRegister := fun _ _ => throw "not embedded";
     handleSetupChunksTable := fun _ _ => throw "not embedded";
     handleStatus := fun _ _ _ => throw "not embedded";
     handlePairs := fun _ _ _ => throw "not embedded";
     handleCreatePair := fun _ _ _ => throw "not embedded";
     handleDownloadChunk := fun _ _ _ => throw "not embedded";
     handleConflicts := fun _ _ _ => throw "not embedded";
     handleResolve := fun _ _ _ => throw "not embedded";
     handleLedger := fun _ _ _ => throw "not embedded";
     handleSyncComplete := fun _ _ _ => throw "not embedded" |}.

Definition suspended : customer :=
  {| cust_id := 2%N; company_name := "Globex"; api_key_hash := "sha256:ts_live_9f";
     subscription_status := "cancelled" |}.

Definition db_with_suspended : db :=
  {| ts_customers := [acme; suspended]; ts_sync_pairs := ts_sync_pairs db0;
     ts_sync_queue := ∅; ts_package_chunks := ∅; ts_usage_metrics := ∅;
     ts_audit_log := [] |}.

Definition upload_with_key (key : string) : request :=
  {| method := "POST"; query_action := Some "upload"; query_sync_pair_id := None;
     x_api_key := Some key; req_body := req_body (upload_of (Some "UEsDBA==")) |}.

(** ** Properties *)

Lemma given_Some (o : option string) :
  given o = true <-> exists s, o = Some s /\ s <> "".
Proof.
  unfold given. destruct o as [s|]; simpl.
  - rewrite negb_true_iff. split.
    + intros H. exists s. split; [done|]. intros ->. discriminate.
    + intros (s' & [= <-] & Hne). apply String.eqb_neq. done.
  - split; [discriminate|]. intros (s & H & _). discriminate.
Qed.

Lemma method_POST (req : request) :
  method req = "POST" -> negb (method req =? "POST") = false.
Proof. intros ->. reflexivity. Qed.

Lemma is_zero_Int i : is_zero (Int i) = true -> i = 0.
Proof. unfold is_zero. by destruct i. Qed.

Lemma alter_present `{Countable K} {A} (f : A -> A) (m : gmap K A) k x :
  m !! k = Some x -> alter f k m = <[k := f x]> m.
Proof.
  intros Hk. apply map_eq. intros k'. destruct (decide (k = k')) as [<-|Hne].
  - by rewrite lookup_alter_eq, lookup_insert_eq, Hk.
  - by rewrite lookup_alter_ne, lookup_insert_ne.
Qed.

(** *** upload *)

(** A well-formed upload that names a pair of the caller creates exactly
    one queue row, under the id the database generated. *)
Lemma handleUpload_accepted e req c d b pid m :
  method req = "POST" ->
  req_body req = Some b ->
  body_sync_pair_id b = Some pid ->
  body_manifest b = Some m ->
  truthy m = true ->
  owns_pair c pid d = true ->
  ts_sync_queue d !! new_uuid e = None ->
  exists d',
    handleUpload e req c d =
      (Ok {| status_code := 202;
             json_body :=
               UploadAccepted (new_uuid e)
                 (if given (package_base64 b) then completed else pending)
                 (given (package_base64 b))
                 (if given (package_base64 b)
                  then "Package stored successfully"
                  else "Manifest queued (use upload-chunk for large packages)") |},
       d')
    /\ ts_sync_queue d' =
         <[new_uuid e := new_entry e c pid m (package_base64 b)]> (ts_sync_queue d)
    /\ ts_package_chunks d' = ts_package_chunks d.
Proof.
  intros Hm Hb Hp Hman Ht Hown Hfresh.
  unfold handleUpload. rewrite (method_POST _ Hm).
  unfold_monad. rewrite Hb. simpl. rewrite Hp, Hman, Ht. simpl. rewrite Hown. simpl.
  rewrite Hfresh. simpl. eexists. split; [reflexivity|]. split; reflexivity.
Qed.

(** Whatever the request, upload either leaves the database as it is or
    adds one queue row under a fresh id; it never touches the chunks. *)
Lemma handleUpload_effect e req c d :
  (handleUpload e req c d).2 = d
  \/ exists pid m blob,
       ts_sync_queue d !! new_uuid e = None
       /\ ts_sync_queue (handleUpload e req c d).2 =
            <[new_uuid e := new_entry e c pid m blob]> (ts_sync_queue d)
       /\ ts_package_chunks (handleUpload e req c d).2 = ts_package_chunks d.
Proof.
  unfold handleUpload. destruct (negb (method req =? "POST")); [by left|].
  unfold_monad. destruct (req_body req) as [b|]; [simpl|by left].
  destruct (body_sync_pair_id b) as [pid|]; [|by left].
  destruct (body_manifest b) as [m|]; [|by left].
  destruct (truthy m); [simpl|by left].
  destruct (owns_pair c pid d); [simpl|by left].
  destruct (ts_sync_queue d !! new_uuid e) eqn:Hfresh; [by left|].
  right. exists pid, m, (package_base64 b). simpl. done.
Qed.

(** *** upload-chunk *)

Lemma chunk_count_ext q d1 d2 :
  ts_package_chunks d1 = ts_package_chunks d2 -> chunk_count q d1 = chunk_count q d2.
Proof. unfold chunk_count, chunks_of. by intros ->. Qed.

Lemma chunk_total_size_ext q d1 d2 :
  ts_package_chunks d1 = ts_package_chunks d2 ->
  chunk_total_size q d1 = chunk_total_size q d2.
Proof. unfold chunk_total_size, chunks_of. by intros ->. Qed.

(** An upload-chunk call answers 200 exactly when it stored the chunk;
    otherwise nothing was written. *)
Lemma handleUploadChunk_effect e req c d :
  (code_of (handleUploadChunk e req c d).1 <> Some 200
   /\ (handleUploadChunk e req c d).2 = d)
  \/ exists b q i data,
       chunk_accepted req c d b q i data
       /\ code_of (handleUploadChunk e req c d).1 = Some 200
       /\ (handleUploadChunk e req c d).2 =
            chunk_applied q i data (body_total_chunks b) d.
Proof.
  unfold handleUploadChunk.
  destruct (method req =? "POST") eqn:Hm; simpl; [|by left].
  apply String.eqb_eq in Hm.
  unfold_monad. destruct (req_body req) as [b|] eqn:Hb; [simpl|by left].
  destruct (body_queue_id b) as [q|] eqn:Hq; [|by left].
  destruct (chunk_index b) as [| |i] eqn:Hi; [by left| |].
  - destruct (given (chunk_data b)); simpl; [|by left].
    destruct (owns_entry c q d); simpl; [|by left].
    rewrite andb_false_r. simpl. by left.
  - destruct (given (chunk_data b)) eqn:Hd; simpl; [|by left].
    apply given_Some in Hd as (data & Hd & Hne).
    destruct (owns_entry c q d) eqn:Hown; simpl; [|by left].
    unfold chunk_applied, recount, store_chunk, declare_total, chunk_accepted.
    destruct (truthy_int (body_total_chunks b) && is_zero (Int i)) eqn:Hc; simpl.
    + destruct (body_total_chunks b) as [| |t] eqn:Ht; [done|done|].
      destruct (int4 t) eqn:Ht4; simpl; [|by left].
      assert (i = 0) as -> by (apply andb_true_iff in Hc as [_ Hz]; by apply is_zero_Int).
      change (int4 0) with true. simpl.
      right. exists b, q, 0, data. rewrite Hd, Ht. simpl. rewrite Hc.
      repeat split; try done. intros _. by exists t.
    + destruct (int4 i) eqn:Hi4; simpl; [|by left].
      right. exists b, q, i, data. rewrite Hd, Hc. simpl.
      repeat split; try done. by destruct (body_total_chunks b).
Qed.

(** Conversely, under those conditions the call is answered with 200. *)
Lemma handleUploadChunk_accepted e req c d b q i data :
  chunk_accepted req c d b q i data ->
  code_of (handleUploadChunk e req c d).1 = Some 200
  /\ (handleUploadChunk e req c d).2 = chunk_applied q i data (body_total_chunks b) d.
Proof.
  intros (Hm & Hb & Hq & Hi & Hi4 & Hd & Hne & Hown & Htot).
  unfold handleUploadChunk. rewrite (method_POST _ Hm).
  unfold_monad. rewrite Hb. simpl. rewrite Hq, Hi.
  assert (given (chunk_data b) = true) as -> by (apply given_Some; eauto).
  simpl. rewrite Hown. simpl.
  unfold chunk_applied, recount, store_chunk, declare_total.
  destruct (truthy_int (body_total_chunks b) && is_zero (Int i)) eqn:Hc; simpl.
  - destruct (Htot eq_refl) as (t & Ht & Ht4). rewrite Ht in *.
    rewrite Ht4, Hi4, Hd. unfold_monad. simpl. done.
  - rewrite Hi4, Hd. unfold_monad. simpl. by destruct (body_total_chunks b).
Qed.

Lemma chunk_applied_chunks q i data total d :
  ts_package_chunks (chunk_applied q i data total d) =
    <[(q, i) := data]> (ts_package_chunks d).
Proof.
  unfold chunk_applied, recount, store_chunk, declare_total. simpl.
  destruct total; try done. by destruct (_ && _).
Qed.

Lemma store_chunk_chunks q i data d :
  ts_package_chunks (store_chunk q i data d) = <[(q, i) := data]> (ts_package_chunks d).
Proof. reflexivity. Qed.

Lemma chunk_applied_queue q i data total d :
  ts_sync_queue (chunk_applied q i data total d) =
    alter (chunk_entry i total (chunk_count q (store_chunk q i data d))) q (ts_sync_queue d).
Proof.
  unfold chunk_applied, recount, store_chunk, declare_total, chunk_entry. simpl.
  apply map_eq. intros q'. destruct (decide (q = q')) as [<-|Hne].
  - rewrite !lookup_alter_eq.
    destruct total as [| |t]; simpl; try done.
    destruct (truthy_int (Int t) && is_zero (Int i)); simpl; [|done].
    rewrite lookup_alter_eq. by destruct (ts_sync_queue d !! q).
  - rewrite !lookup_alter_ne by done.
    destruct total as [| |t]; simpl; try done.
    destruct (truthy_int (Int t) && is_zero (Int i)); simpl; [|done].
    by rewrite lookup_alter_ne.
Qed.

Lemma chunk_applied_frame q i data total d :
  ts_customers (chunk_applied q i data total d) = ts_customers d
  /\ ts_sync_pairs (chunk_applied q i data total d) = ts_sync_pairs d
  /\ ts_usage_metrics (chunk_applied q i data total d) = ts_usage_metrics d
  /\ ts_audit_log (chunk_applied q i data total d) = ts_audit_log d.
Proof.
  unfold chunk_applied, recount, store_chunk, declare_total. simpl.
  destruct total; try done. by destruct (_ && _).
Qed.

Lemma db_eq (d1 d2 : db) :
  ts_customers d1 = ts_customers d2 ->
  ts_sync_pairs d1 = ts_sync_pairs d2 ->
  ts_sync_queue d1 = ts_sync_queue d2 ->
  ts_package_chunks d1 = ts_package_chunks d2 ->
  ts_usage_metrics d1 = ts_usage_metrics d2 ->
  ts_audit_log d1 = ts_audit_log d2 ->
  d1 = d2.
Proof. destruct d1, d2. simpl. by intros -> -> -> -> -> ->. Qed.

Lemma chunk_entry_idem i total n en :
  chunk_entry i total n (chunk_entry i total n en) = chunk_entry i total n en.
Proof.
  unfold chunk_entry. destruct total; try done. by destruct (_ && _).
Qed.

(** Storing the same chunk a second time changes nothing, in any table. *)
Lemma chunk_applied_idem q i data total d :
  chunk_applied q i data total (chunk_applied q i data total d) =
    chunk_applied q i data total d.
Proof.
  destruct (chunk_applied_frame q i data total (chunk_applied q i data total d))
    as (H1 & H2 & H3 & H4).
  apply db_eq; try done.
  - rewrite (chunk_applied_queue q i data total (chunk_applied _ _ _ _ d)).
    rewrite (chunk_count_ext q _ (store_chunk q i data d)).
    2:{ rewrite !store_chunk_chunks, chunk_applied_chunks. apply insert_insert_eq. }
    rewrite chunk_applied_queue.
    apply map_eq. intros q'. destruct (decide (q = q')) as [<-|Hne].
    + rewrite !lookup_alter_eq. destruct (ts_sync_queue d !! q); simpl; [|done].
      by rewrite chunk_entry_idem.
    + by rewrite !lookup_alter_ne.
  - rewrite !chunk_applied_chunks. apply insert_insert_eq.
Qed.

Lemma owns_entry_alter c q f q' d :
  (forall en, customer_id (f en) = customer_id en) ->
  owns_entry c q (set_queue (alter f q') d) = owns_entry c q d.
Proof.
  intros Hf. unfold owns_entry. simpl.
  destruct (decide (q' = q)) as [->|Hne].
  - rewrite lookup_alter_eq. destruct (ts_sync_queue d !! q); simpl; [|done].
    by rewrite Hf.
  - by rewrite lookup_alter_ne.
Qed.

Lemma owns_entry_chunk_applied c q' q i data total d :
  owns_entry c q' (chunk_applied q i data total d) = owns_entry c q' d.
Proof.
  unfold owns_entry. rewrite chunk_applied_queue.
  destruct (decide (q = q')) as [->|Hne].
  - rewrite lookup_alter_eq. destruct (ts_sync_queue d !! q'); simpl; [|done].
    unfold chunk_entry. destruct total; try done. by destruct (_ && _).
  - by rewrite lookup_alter_ne.
Qed.

(** In the list of rows of a keyed table, a key occurs at most once. *)
Lemma rows_with_key `{Countable K} {A} (m : gmap K A) (k : K) (v : A) :
  m !! k = Some v ->
  filter (fun row => row.1 = k) (map_to_list m) = [(k, v)].
Proof.
  intros Hk. apply Permutation_singleton_r.
  rewrite <- (insert_id m k v Hk) at 1. rewrite <- insert_delete_eq.
  rewrite map_to_list_insert by apply lookup_delete_eq.
  rewrite filter_cons_True by done. f_equiv.
  apply Permutation_nil_r.
  assert (forall l : list (K * A), (forall row, row ∈ l -> row.1 <> k) ->
            filter (fun row : K * A => row.1 = k) l = []) as Hnone.
  { induction l as [|x l IH]; intros Hl; [done|].
    rewrite filter_cons_False by (apply Hl; left).
    apply IH. intros row Hrow. apply Hl. by right. }
  apply Hnone. intros [k' v'] Hin Heq. simpl in Heq. subst k'.
  apply elem_of_map_to_list in Hin. by rewrite lookup_delete_eq in Hin.
Qed.

(** *** upload-complete *)

Lemma handleUploadComplete_accepted e req c d q en :
  complete_accepted req c d q en ->
  handleUploadComplete e req c d =
    (Ok {| status_code := 200;
           json_body := UploadCompleted q (chunk_count q d) (chunk_total_size q d) |},
     complete_applied e c q en d).
Proof.
  intros (Hm & (b & Hb & Hq) & Hen & Hc).
  unfold handleUploadComplete. rewrite (method_POST _ Hm).
  unfold_monad. rewrite Hb. simpl. rewrite Hq. simpl. rewrite Hen.
  rewrite bool_decide_eq_true_2 by done. simpl. done.
Qed.

Lemma handleUploadComplete_effect e req c d :
  (code_of (handleUploadComplete e req c d).1 <> Some 200
   /\ (handleUploadComplete e req c d).2 = d)
  \/ exists q en,
       complete_accepted req c d q en
       /\ (handleUploadComplete e req c d).2 = complete_applied e c q en d.
Proof.
  destruct (method req =? "POST") eqn:Hm.
  2:{ left. unfold handleUploadComplete. by rewrite Hm. }
  apply String.eqb_eq in Hm.
  destruct (req_body req) as [b|] eqn:Hb.
  2:{ left. unfold handleUploadComplete. rewrite (method_POST _ Hm).
      unfold_monad. by rewrite Hb. }
  destruct (body_queue_id b) as [q|] eqn:Hq.
  2:{ left. unfold handleUploadComplete. rewrite (method_POST _ Hm).
      unfold_monad. rewrite Hb. simpl. by rewrite Hq. }
  destruct (ts_sync_queue d !! q) as [en|] eqn:Hen.
  2:{ left. unfold handleUploadComplete. rewrite (method_POST _ Hm).
      unfold_monad. rewrite Hb. simpl. rewrite Hq. simpl. by rewrite Hen. }
  destruct (decide (customer_id en = cust_id c)) as [Hc|Hc].
  2:{ left. unfold handleUploadComplete. rewrite (method_POST _ Hm).
      unfold_monad. rewrite Hb. simpl. rewrite Hq. simpl. rewrite Hen.
      by rewrite bool_decide_eq_false_2. }
  right. exists q, en.
  assert (complete_accepted req c d q en) as Hacc by (repeat split; eauto).
  split; [done|]. by rewrite (handleUploadComplete_accepted e _ _ _ _ _ Hacc).
Qed.

(** The rows [chunks_of] returns are exactly the stored chunks of that
    entry, each once. *)
Lemma elem_of_chunks_of q d k data :
  (k, data) ∈ chunks_of q d <-> ts_package_chunks d !! k = Some data /\ k.1 = q.
Proof.
  unfold chunks_of. rewrite elem_of_map_to_list.
  by rewrite (map_lookup_filter_Some (fun kv : uuid * Z * string => kv.1.1 = q)).
Qed.

Lemma NoDup_chunks_of q d : NoDup (chunks_of q d).
Proof. apply NoDup_map_to_list. Qed.

(** Every list of the stored chunks of an entry is a rearrangement of the
    rows the handlers' queries see. *)
Lemma chunks_of_stored_chunks q d rows :
  stored_chunks d q rows ->
  (fun r : uuid * Z * string => (r.1.2, r.2)) <$> chunks_of q d ≡ₚ rows.
Proof.
  intros [Hnd Hrows]. apply NoDup_Permutation; [|done|].
  - apply NoDup_fmap_2_strong; [|apply NoDup_chunks_of].
    intros [[q1 i1] x1] [[q2 i2] x2] H1 H2 [= -> ->].
    apply elem_of_chunks_of in H1 as [_ H1], H2 as [_ H2]. simpl in *. congruence.
  - intros [i data]. rewrite Hrows, list_elem_of_fmap. split.
    + intros ([[q' i'] x] & [= -> ->] & Hin).
      apply elem_of_chunks_of in Hin as [Hl Hq]. simpl in Hq. by subst.
    + intros Hl. exists ((q, i), data). split; [done|]. by apply elem_of_chunks_of.
Qed.


Lemma total_length_perm rows rows' :
  rows ≡ₚ rows' -> total_length rows = total_length rows'.
Proof.
  unfold total_length. induction 1 as [|x l l' _ IH|x y l|l l' l'' _ IH1 _ IH2]; simpl.
  - done.
  - by rewrite IH.
  - lia.
  - by rewrite IH1.
Qed.

(** COUNT( * ) is the number of stored chunks of the entry, and
    SUM(LENGTH(chunk_data)) the sum of the lengths of their data. *)
Lemma chunk_count_stored_chunks q d rows :
  stored_chunks d q rows -> chunk_count q d = Z.of_nat (List.length rows).
Proof.
  intros Hrows. unfold chunk_count.
  by rewrite <- (Permutation_length (chunks_of_stored_chunks q d rows Hrows)), length_fmap.
Qed.

Lemma chunk_total_size_stored_chunks q d rows :
  stored_chunks d q rows -> chunk_total_size q d = total_length rows.
Proof.
  intros Hrows.
  rewrite <- (total_length_perm _ _ (chunks_of_stored_chunks q d rows Hrows)).
  unfold chunk_total_size, total_length.
  induction (chunks_of q d) as [|r l IH]; simpl; [done|by rewrite IH].
Qed.

Lemma mark_completed_forgets_total e n size declared en :
  mark_completed e n size (mark_processing declared en) = mark_completed e n size en.
Proof. reflexivity. Qed.

(** *** A sample state *)

Example db_two_chunks_entry :
  ts_sync_queue db_two_chunks !! 50%N =
    Some {| customer_id := 1%N; sync_pair_id := 7%N; q_direction := inbound;
            manifest := JObj [("components", JObj [("flows", JArr [JStr "f1"])])];
            status := processing; package_data := None; package_size_bytes := 0;
            total_chunks := 5; chunks_received := 2; created_at := 100;
            processing_completed_at := None |}.
Proof. vm_compute. reflexivity. Qed.

(** *** Completion records the aggregate of the stored chunks *)

Example db_two_chunks_rows :
  stored_chunks db_two_chunks 50%N [(0, "AAAA"); (1, "BBB")].
Proof.
  assert (ts_package_chunks db_two_chunks =
            <[(50%N, 0) := "AAAA"]> (<[(50%N, 1) := "BBB"]> ∅)) as Hrows
    by (vm_compute; reflexivity).
  split.
  - apply NoDup_cons. split; [|apply NoDup_singleton].
    rewrite list_elem_of_singleton. discriminate.
  - intros i data. rewrite Hrows, !elem_of_cons, elem_of_nil.
    rewrite !lookup_insert_Some, lookup_empty. split.
    + intros [[= -> ->]|[[= -> ->]|[]]]; [by left|right].
      split; [discriminate|]. by left.
    + intros [[[= <-] <-]|[_ [[[= <-] <-]|[_ ?]]]]; [by left|right; by left|done].
Qed.

(** C2: when the owner of a queue entry signals completion, the relay
    answers 200 and sets the entry's total_chunks and chunks_received to
    the number of chunks stored for it, package_size_bytes to the sum of
    the lengths of their data, and status to completed, and reports and
    audits these two numbers; nothing else is written.  A total declared
    earlier through upload-chunk (which set total_chunks and status
    processing) changes nothing in the completed entry.  The chunks of
    the entry are given by any list [rows] of them. *)
Theorem upload_complete_records_aggregate e req c d b q en rows :
  method req = "POST" ->
  req_body req = Some b ->
  body_queue_id b = Some q ->
  ts_sync_queue d !! q = Some en ->
  customer_id en = cust_id c ->
  stored_chunks d q rows ->
  let n := Z.of_nat (List.length rows) in
  let size := total_length rows in
  exists en',
    handleUploadComplete e req c d =
      (Ok {| status_code := 200; json_body := UploadCompleted q n size |},
       completed_with e c q en n size d)
    /\ ts_sync_queue (handleUploadComplete e req c d).2 !! q = Some en'
    /\ total_chunks en' = n
    /\ chunks_received en' = n
    /\ package_size_bytes en' = size
    /\ status en' = completed
    /\ forall declared,
         ts_sync_queue
           (handleUploadComplete e req c
              (set_queue (alter (mark_processing declared) q) d)).2 !! q = Some en'.
Proof.
  intros Hm Hb Hq Hen Hc Hrows n size.
  assert (chunk_count q d = n) as Hn by by apply chunk_count_stored_chunks.
  assert (chunk_total_size q d = size) as Hsize by by apply chunk_total_size_stored_chunks.
  assert (complete_accepted req c d q en) as Hacc by (repeat split; eauto).
  exists (mark_completed e n size en).
  rewrite (handleUploadComplete_accepted e _ _ _ _ _ Hacc). simpl.
  unfold complete_applied, completed_with. rewrite Hn, Hsize.
  split; [unfold set_queue; by rewrite (alter_present _ _ _ _ Hen)|].
  split; [by rewrite lookup_alter_eq, Hen|].
  repeat (split; [reflexivity|]).
  intros declared.
  set (d1 := set_queue (alter (mark_processing declared) q) d).
  assert (complete_accepted req c d1 q (mark_processing declared en)) as Hacc1.
  { repeat split; eauto. subst d1. simpl. by rewrite lookup_alter_eq, Hen. }
  rewrite (handleUploadComplete_accepted e _ _ _ _ _ Hacc1). simpl.
  rewrite !lookup_alter_eq, Hen. simpl.
  rewrite (chunk_count_ext q d1 d), (chunk_total_size_ext q d1 d) by done.
  by rewrite Hn, Hsize, mark_completed_forgets_total.
Qed.

Lemma upload_complete_records_aggregate_witness :
  exists en',
    ts_sync_queue
      (handleUploadComplete (at_time 103 0%N) (complete_of 50%N) acme db_two_chunks).2
      !! 50%N = Some en'
    /\ total_chunks en' = 2 /\ chunks_received en' = 2
    /\ package_size_bytes en' = 7 /\ status en' = completed.
Proof.
  destruct (upload_complete_records_aggregate (at_time 103 0%N) (complete_of 50%N)
              acme db_two_chunks _ 50%N _ [(0, "AAAA"); (1, "BBB")]
              eq_refl eq_refl eq_refl db_two_chunks_entry eq_refl db_two_chunks_rows)
    as (en' & _ & Hq & Ht & Hr & Hs & Hst & _).
  exists en'. split; [exact Hq|].
  split; [exact Ht|]. split; [exact Hr|]. split; [exact Hs|exact Hst].
Defined.

(** *** Uploading a chunk is an upsert *)

(** C3: an upload-chunk call that is accepted (answered 200) upserts the
    row keyed by (queue_id, chunk_index): afterwards the chunk table is
    the old one with that key bound to the data sent, and it holds exactly
    one row for that key; sending the same request again is accepted and
    leaves the whole database as it was after the first call; sending it
    with other data replaces the data stored for that key, still in a
    single row. *)
Theorem upload_chunk_is_upsert e e1 e2 req c d b q i data :
  req_body req = Some b ->
  body_queue_id b = Some q ->
  chunk_index b = Int i ->
  chunk_data b = Some data ->
  code_of (handleUploadChunk e req c d).1 = Some 200 ->
  let d1 := (handleUploadChunk e req c d).2 in
  ts_package_chunks d1 = <[(q, i) := data]> (ts_package_chunks d)
  /\ filter (fun row => row.1 = (q, i)) (map_to_list (ts_package_chunks d1))
       = [((q, i), data)]
  /\ code_of (handleUploadChunk e1 req c d1).1 = Some 200
  /\ (handleUploadChunk e1 req c d1).2 = d1
  /\ forall data',
       data' <> "" ->
       let d2 := (handleUploadChunk e2 (with_chunk_data data' req) c d1).2 in
       code_of (handleUploadChunk e2 (with_chunk_data data' req) c d1).1 = Some 200
       /\ ts_package_chunks d2 = <[(q, i) := data']> (ts_package_chunks d)
       /\ filter (fun row => row.1 = (q, i)) (map_to_list (ts_package_chunks d2))
            = [((q, i), data')].
Proof.
  intros Hb Hq Hi Hd H200 d1.
  destruct (handleUploadChunk_effect e req c d)
    as [[Hno _]|(b0 & q0 & i0 & data0 & Hacc & _ & Hd1)]; [done|].
  pose proof Hacc as (Hm & Hb0 & Hq0 & Hi0 & Hi4 & Hd0 & Hne & Hown & Htot).
  assert (b0 = b) as -> by congruence.
  assert (q0 = q) as -> by congruence.
  assert (i0 = i) as -> by congruence.
  assert (data0 = data) as -> by congruence.
  fold d1 in Hd1.
  assert (ts_package_chunks d1 = <[(q, i) := data]> (ts_package_chunks d)) as Hchunks
    by (rewrite Hd1; apply chunk_applied_chunks).
  split; [done|]. split.
  { apply rows_with_key. rewrite Hchunks. apply lookup_insert_eq. }
  assert (owns_entry c q d1 = true) as Hown1
    by (rewrite Hd1, owns_entry_chunk_applied; done).
  assert (chunk_accepted req c d1 b q i data) as Hacc1 by (repeat split; eauto).
  destruct (handleUploadChunk_accepted e1 _ _ _ _ _ _ _ Hacc1) as [Hc1 Hs1].
  split; [done|]. split.
  { rewrite Hs1, Hd1. apply chunk_applied_idem. }
  intros data' Hne' d2.
  assert (chunk_accepted (with_chunk_data data' req) c d1
            {| body_action := body_action b; body_sync_pair_id := body_sync_pair_id b;
               body_manifest := body_manifest b; package_base64 := package_base64 b;
               body_queue_id := body_queue_id b; chunk_index := chunk_index b;
               chunk_data := Some data'; body_total_chunks := body_total_chunks b |}
            q i data') as Hacc2.
  { unfold chunk_accepted. simpl. rewrite Hb. simpl. repeat split; eauto. }
  destruct (handleUploadChunk_accepted e2 _ _ _ _ _ _ _ Hacc2) as [Hc2 Hs2].
  split; [done|].
  assert (ts_package_chunks d2 = <[(q, i) := data']> (ts_package_chunks d)) as Hchunks2.
  { subst d2. rewrite Hs2, chunk_applied_chunks, Hchunks. apply insert_insert_eq. }
  split; [done|].
  apply rows_with_key. rewrite Hchunks2. apply lookup_insert_eq.
Qed.

Lemma upload_chunk_is_upsert_witness :
  let d := apply_op db0 (Upload (at_time 100 50%N) (upload_of None) acme) in
  let req := chunk_of 50%N (Int 0) "AAAA" (Int 5) in
  let d1 := (handleUploadChunk (at_time 101 0%N) req acme d).2 in
  ts_package_chunks d1 = {[ (50%N, 0) := "AAAA" ]}
  /\ (handleUploadChunk (at_time 102 0%N) req acme d1).2 = d1
  /\ ts_package_chunks
       (handleUploadChunk (at_time 103 0%N) (with_chunk_data "CC" req) acme d1).2
     = {[ (50%N, 0) := "CC" ]}.
Proof.
  intros d req d1.
  destruct (upload_chunk_is_upsert (at_time 101 0%N) (at_time 102 0%N) (at_time 103 0%N)
              req acme d _ 50%N 0 "AAAA" eq_refl eq_refl eq_refl eq_refl eq_refl)
    as (H1 & _ & _ & H2 & H3).
  split; [exact H1|]. split; [exact H2|].
  destruct (H3 "CC") as (_ & H4 & _); [discriminate|]. exact H4.
Defined.

(** *** Inline upload *)

Lemma new_entry_with_blob e c pid m blob :
  blob <> "" ->
  package_data (new_entry e c pid m (Some blob)) = Some blob
  /\ package_size_bytes (new_entry e c pid m (Some blob)) = Z.of_nat (String.length blob)
  /\ status (new_entry e c pid m (Some blob)) = completed.
Proof.
  intros Hne. unfold new_entry. simpl.
  assert (given (Some blob) = true) as -> by (apply given_Some; eauto). done.
Qed.

Lemma new_entry_without_blob e c pid m blob :
  given blob = false ->
  package_data (new_entry e c pid m blob) = None
  /\ package_size_bytes (new_entry e c pid m blob) = 0
  /\ status (new_entry e c pid m blob) = pending.
Proof. intros H. unfold new_entry. simpl. rewrite H. by destruct blob. Qed.

(** C6: an upload that carries a manifest, names a sync pair of the caller
    and supplies the encoded package (a non-empty package_base64) below
    the inline threshold is answered 202 and creates a queue entry that
    holds the blob in package_data, its length in package_size_bytes and
    the status completed, all in that call; when no blob is supplied
    (package_base64 absent or empty) the entry is created pending, without
    package data. *)
Theorem upload_stores_small_package_inline e req c d b pid m :
  method req = "POST" ->
  req_body req = Some b ->
  body_sync_pair_id b = Some pid ->
  body_manifest b = Some m ->
  truthy m = true ->
  owns_pair c pid d = true ->
  ts_sync_queue d !! new_uuid e = None ->
  exists en,
    code_of (handleUpload e req c d).1 = Some 202
    /\ ts_sync_queue (handleUpload e req c d).2 !! new_uuid e = Some en
    /\ (forall blob,
          package_base64 b = Some blob ->
          blob <> "" ->
          Z.of_nat (String.length blob) < MAX_INLINE_SIZE ->
          package_data en = Some blob
          /\ package_size_bytes en = Z.of_nat (String.length blob)
          /\ status en = completed)
    /\ (given (package_base64 b) = false ->
        package_data en = None /\ status en = pending).
Proof.
  intros Hm Hb Hp Hman Ht Hown Hfresh.
  destruct (handleUpload_accepted e req c d b pid m Hm Hb Hp Hman Ht Hown Hfresh)
    as (d' & Hrun & Hq & _).
  exists (new_entry e c pid m (package_base64 b)).
  rewrite Hrun. simpl. split; [done|]. split; [by rewrite Hq, lookup_insert_eq|].
  split.
  - intros blob Hblob Hne _. rewrite Hblob.
    exact (new_entry_with_blob e c pid m blob Hne).
  - intros Hnone. by destruct (new_entry_without_blob e c pid m _ Hnone) as (? & _ & ?).
Qed.

Lemma upload_stores_small_package_inline_witness :
  exists en,
    ts_sync_queue (handleUpload (at_time 100 50%N) (upload_of (Some "UEsDBA==")) acme db0).2
      !! 50%N = Some en
    /\ package_data en = Some "UEsDBA==" /\ package_size_bytes en = 8
    /\ status en = completed.
Proof.
  destruct (upload_stores_small_package_inline (at_time 100 50%N)
              (upload_of (Some "UEsDBA==")) acme db0 _ 7%N _
              eq_refl eq_refl eq_refl eq_refl eq_refl eq_refl eq_refl)
    as (en & _ & Hq & Hblob & _).
  exists en. split; [exact Hq|].
  apply (Hblob "UEsDBA==" eq_refl); [discriminate|reflexivity].
Defined.

(** C9 as stated fails at the string of length zero: it is not stored,
    and the entry is created pending, with no package data. *)
Lemma empty_string_is_not_stored_inline : ~ stores_every_string_inline.
Proof.
  intros H.
  destruct (H (at_time 100 50%N) (upload_of (Some "")) acme db0 _ 7%N _ ""
              eq_refl eq_refl eq_refl eq_refl eq_refl eq_refl eq_refl eq_refl)
    as (en & Hq & Hdata & _).
  vm_compute in Hq. injection Hq as <-. discriminate Hdata.
Qed.

(** C9, amended: the upload handler imposes no size limit on inline
    storage.  For every upload whose package_base64 is a non-empty string,
    of any length, below or above MAX_INLINE_SIZE, the blob is stored
    inline on the new queue entry, with its length and the status
    completed; the constant takes no part.  The empty string counts as no
    package: the entry is created pending, with no package data. *)
Theorem upload_inline_has_no_size_limit e req c d b pid m blob :
  method req = "POST" ->
  req_body req = Some b ->
  body_sync_pair_id b = Some pid ->
  body_manifest b = Some m ->
  truthy m = true ->
  owns_pair c pid d = true ->
  ts_sync_queue d !! new_uuid e = None ->
  package_base64 b = Some blob ->
  exists en,
    code_of (handleUpload e req c d).1 = Some 202
    /\ ts_sync_queue (handleUpload e req c d).2 !! new_uuid e = Some en
    /\ (blob <> "" ->
        package_data en = Some blob
        /\ package_size_bytes en = Z.of_nat (String.length blob)
        /\ status en = completed)
    /\ (blob = "" -> package_data en = None /\ status en = pending).
Proof.
  intros Hm Hb Hp Hman Ht Hown Hfresh Hblob.
  destruct (handleUpload_accepted e req c d b pid m Hm Hb Hp Hman Ht Hown Hfresh)
    as (d' & Hrun & Hq & _).
  exists (new_entry e c pid m (package_base64 b)).
  rewrite Hrun. simpl. split; [done|]. split; [by rewrite Hq, lookup_insert_eq|].
  rewrite Hblob. split.
  - intros Hne. exact (new_entry_with_blob e c pid m blob Hne).
  - intros ->.
    by destruct (new_entry_without_blob e c pid m (Some "") eq_refl) as (? & _ & ?).
Qed.

Lemma upload_inline_has_no_size_limit_witness :
  exists en,
    ts_sync_queue (handleUpload (at_time 100 50%N) (upload_of (Some "UEsDBA==")) acme db0).2
      !! 50%N = Some en
    /\ package_data en = Some "UEsDBA==" /\ status en = completed.
Proof.
  destruct (upload_inline_has_no_size_limit (at_time 100 50%N)
              (upload_of (Some "UEsDBA==")) acme db0 _ 7%N _ "UEsDBA=="
              eq_refl eq_refl eq_refl eq_refl eq_refl eq_refl eq_refl eq_refl)
    as (en & _ & Hq & Hstored & _).
  exists en. split; [exact Hq|].
  destruct Hstored as (Hdata & _ & Hst); [discriminate|].
  split; [exact Hdata|exact Hst].
Defined.

(** *** Download *)

Lemma ready_for_true c pid id pkg :
  ready_for c pid (id, pkg) = true <-> ready c pid pkg.
Proof.
  unfold ready_for, ready. simpl.
  rewrite !andb_true_iff, !bool_decide_eq_true. tauto.
Qed.

Lemma latest_nil rows : latest rows = None <-> rows = [].
Proof.
  destruct rows as [|row rows]; [done|]. simpl.
  split; [|done]. destruct (latest rows) as [b|]; [|done].
  by destruct (created_at row.2 <? created_at b.2)%Z.
Qed.

Lemma latest_is_newest rows best :
  latest rows = Some best ->
  best ∈ rows /\ forall row, row ∈ rows -> created_at row.2 <= created_at best.2.
Proof.
  revert best. induction rows as [|r rows IH]; intros best; [done|]. simpl.
  destruct (latest rows) as [b|] eqn:Hb.
  - destruct (IH b eq_refl) as [Hin Hmax].
    destruct (created_at r.2 <? created_at b.2)%Z eqn:Hlt; intros [= <-].
    + apply Z.ltb_lt in Hlt. split; [by right|].
      intros row [->|Hrow]%elem_of_cons; [lia|by apply Hmax].
    + apply Z.ltb_ge in Hlt. split; [by left|].
      intros row [->|Hrow]%elem_of_cons; [lia|]. specialize (Hmax row Hrow). lia.
  - apply latest_nil in Hb as ->. intros [= <-]. split; [by left|].
    intros row [->|Hrow]%elem_of_cons; [lia|]. by apply elem_of_nil in Hrow.
Qed.

Lemma elem_of_ready_rows c pid d id pkg :
  (id, pkg) ∈ List.filter (ready_for c pid) (map_to_list (ts_sync_queue d))
  <-> ts_sync_queue d !! id = Some pkg /\ ready c pid pkg.
Proof.
  rewrite list_elem_of_In, filter_In, <- list_elem_of_In.
  by rewrite elem_of_map_to_list, ready_for_true.
Qed.

(** C4: a download request with a sync_pair_id writes nothing and, when
    the caller has a completed inbound entry for that pair, selects one
    created no earlier than any other such entry and reports it in exactly
    one of three transfer modes: inline when the entry has inline package
    data (a non-empty package_data), chunked when it has none and a
    positive total_chunks, manifest_only when it has neither.  When there
    is no such entry the reply is "not available". *)
Theorem download_reports_latest_in_one_mode e req c d pid :
  query_sync_pair_id req = Some pid ->
  (handleDownload e req c d).2 = d
  /\ ((forall id pkg, ts_sync_queue d !! id = Some pkg -> ~ ready c pid pkg)
       /\ (handleDownload e req c d).1 =
            Ok {| status_code := 200; json_body := NotAvailable |}
      \/ exists id pkg p,
           ts_sync_queue d !! id = Some pkg
           /\ ready c pid pkg
           /\ (forall id' pkg',
                 ts_sync_queue d !! id' = Some pkg' -> ready c pid pkg' ->
                 created_at pkg' <= created_at pkg)
           /\ (handleDownload e req c d).1 = Ok {| status_code := 200; json_body := p |}
           /\ match package_data pkg with
              | Some blob =>
                  if blob =? ""
                  then if (0 <? total_chunks pkg)%Z
                       then p = Chunked id (manifest pkg) (total_chunks pkg)
                                  (package_size_bytes pkg) (created_at pkg)
                       else p = ManifestOnly id (manifest pkg) (created_at pkg)
                  else p = Inline id (manifest pkg) blob
                             (package_size_bytes pkg) (created_at pkg)
              | None =>
                  if (0 <? total_chunks pkg)%Z
                  then p = Chunked id (manifest pkg) (total_chunks pkg)
                             (package_size_bytes pkg) (created_at pkg)
                  else p = ManifestOnly id (manifest pkg) (created_at pkg)
              end
           /\ transfer_mode_of p =
                Some (if given (package_data pkg) then inline
                      else if (0 <? total_chunks pkg)%Z then chunked
                      else manifest_only)).
Proof.
  intros Hpid. unfold handleDownload. rewrite Hpid. unfold_monad. simpl.
  destruct (select_package c pid d) as [[id pkg]|] eqn:Hsel; simpl.
  - apply latest_is_newest in Hsel as [Hin Hmax].
    apply elem_of_ready_rows in Hin as [Hq Hready].
    assert (forall id' pkg', ts_sync_queue d !! id' = Some pkg' -> ready c pid pkg' ->
              created_at pkg' <= created_at pkg) as Hnewest.
    { intros id' pkg' Hq' Hr'. apply (Hmax (id', pkg')). by apply elem_of_ready_rows. }
    rewrite Z.gtb_ltb. unfold given.
    assert (forall P Q R : Prop, P -> Q -> R ->
              (ts_sync_queue d !! id = Some pkg /\ ready c pid pkg
               /\ (forall id' pkg', ts_sync_queue d !! id' = Some pkg' ->
                      ready c pid pkg' -> created_at pkg' <= created_at pkg)
               /\ P /\ Q /\ R)) as Hfound by (intros; repeat (split; [done|]); done).
    destruct (package_data pkg) as [blob|] eqn:Hdata; simpl.
    + destruct (blob =? "") eqn:Hblob; simpl.
      * rewrite andb_true_r.
        destruct (0 <? total_chunks pkg)%Z eqn:Hpos; simpl.
        all: split; [done|]; right; eexists id, pkg, _.
        all: rewrite Hdata, Hblob, Hpos; apply Hfound; reflexivity.
      * split; [done|]. right. eexists id, pkg, _.
        rewrite Hdata, Hblob. apply Hfound; reflexivity.
    + rewrite andb_true_r.
      destruct (0 <? total_chunks pkg)%Z eqn:Hpos; simpl.
      all: split; [done|]; right; eexists id, pkg, _.
      all: rewrite Hdata, Hpos; apply Hfound; reflexivity.
  - split; [done|]. left. split; [|done].
    apply latest_nil in Hsel. intros id pkg Hq Hready.
    assert ((id, pkg) ∈ List.filter (ready_for c pid) (map_to_list (ts_sync_queue d)))
      as Hin by by apply elem_of_ready_rows.
    rewrite Hsel in Hin. by apply elem_of_nil in Hin.
Qed.

Lemma download_reports_latest_in_one_mode_witness :
  (handleDownload (at_time 300 0%N) (download_of 7%N) acme db_inline_then_chunked).2
    = db_inline_then_chunked
  /\ (handleDownload (at_time 300 0%N) (download_of 7%N) acme db_inline_then_chunked).1
     = Ok {| status_code := 200;
             json_body :=
               Chunked 51%N (JObj [("components", JObj [("flows", JArr [JStr "f1"])])])
                 1 4 200 |}.
Proof.
  split.
  - exact (proj1 (download_reports_latest_in_one_mode (at_time 300 0%N) (download_of 7%N)
                    acme db_inline_then_chunked 7%N eq_refl)).
  - vm_compute. reflexivity.
Defined.

(** ** Sequences of upload operations *)

Lemma apply_ops_cons o ops d : apply_ops (o :: ops) d = apply_ops ops (apply_op d o).
Proof. reflexivity. Qed.

Lemma apply_op_effect o d : op_effect o d (apply_op d o).
Proof.
  destruct o as [e req c|e req c|e req c]; unfold apply_op; simpl.
  - destruct (handleUpload_effect e req c d) as [->|(pid & m & blob & Hf & Hq & Hc)].
    + by apply no_write.
    + by eapply entry_created.
  - destruct (handleUploadChunk_effect e req c d)
      as [[_ ->]|(b & q & i & data & Hacc & H200 & ->)]; [by apply no_write|].
    destruct Hacc as (_ & Hb & Hq & Hi & _ & _ & _ & Hown & _).
    unfold owns_entry in Hown.
    destruct (ts_sync_queue d !! q) as [en|] eqn:Hen; [|done].
    apply (chunk_stored _ _ _ e req c q en i data
             (match body_total_chunks b with Int t => t | _ => 0 end)
             (chunk_count q (store_chunk q i data d))).
    + done.
    + done.
    + simpl. by rewrite Hb.
    + done.
    + rewrite chunk_applied_queue, (alter_present _ _ _ _ Hen). f_equal.
      unfold chunk_entry. simpl. rewrite Hb, Hi.
      destruct (body_total_chunks b); simpl; try done.
    + apply chunk_applied_chunks.
  - destruct (handleUploadComplete_effect e req c d)
      as [[_ ->]|(q & en & Hacc & ->)]; [by apply no_write|].
    destruct Hacc as (_ & (b & Hb & Hq) & Hen & _).
    apply (entry_completed _ _ _ q en e (chunk_count q d) (chunk_total_size q d)).
    + simpl. by rewrite Hb.
    + done.
    + done.
    + simpl. by apply alter_present.
    + done.
Qed.

(** *** Chunk indices *)

(** C8 as stated fails: a chunk sent with index -1 is stored under -1. *)
Lemma negative_index_is_stored : ~ stores_only_nonnegative_indices.
Proof.
  intros H.
  specialize (H (at_time 101 0%N) (chunk_of 50%N (Int (-1)) "AAAA" Undefined) acme
                (apply_op db0 (Upload (at_time 100 50%N) (upload_of None) acme))).
  assert (0 <= -1); [|lia].
  apply (H ltac:(intros q i [x Hx]; vm_compute in Hx; discriminate) 50%N (-1)).
  exists "AAAA". vm_compute. reflexivity.
Qed.

Lemma apply_op_chunks o d :
  ts_package_chunks (apply_op d o) = ts_package_chunks d
  \/ exists q i data,
       sent_index o = Some i /\ int4 i = true
       /\ is_Some (ts_sync_queue d !! q)
       /\ ts_package_chunks (apply_op d o) = <[(q, i) := data]> (ts_package_chunks d).
Proof.
  destruct o as [e req c|e req c|e req c]; unfold apply_op; simpl.
  - destruct (handleUpload_effect e req c d) as [->|(? & ? & ? & _ & _ & ->)]; by left.
  - destruct (handleUploadChunk_effect e req c d)
      as [[_ ->]|(b & q & i & data & Hacc & _ & ->)]; [by left|].
    destruct Hacc as (_ & Hb & _ & Hi & Hi4 & _ & _ & Hown & _).
    right. exists q, i, data. rewrite Hb, Hi, chunk_applied_chunks.
    repeat split; try done.
    unfold owns_entry in Hown. by destruct (ts_sync_queue d !! q).
  - destruct (handleUploadComplete_effect e req c d) as [[_ ->]|(q & en & _ & ->)];
      by left.
Qed.

(** C8, amended: the handler stores the chunk_index it is sent, a 32-bit
    integer of either sign, without a sign check.  Whatever the requests,
    after a sequence of upload, upload-chunk and upload-complete
    operations every stored chunk index was stored before the sequence
    or is the chunk_index of one of its upload-chunk requests.  So the
    stored chunk indices of every queue entry are non-negative integers
    when the upload-chunk requests all carry a non-negative
    chunk_index. *)
Theorem stored_indices_nonnegative_when_sent_so ops d q i :
  is_Some (ts_package_chunks (apply_ops ops d) !! (q, i)) ->
  (is_Some (ts_package_chunks d !! (q, i))
   \/ exists o, o ∈ ops /\ sent_index o = Some i /\ int4 i = true)
  /\ ((forall q i, is_Some (ts_package_chunks d !! (q, i)) -> 0 <= i) ->
      Forall (fun o => forall i, sent_index o = Some i -> 0 <= i) ops ->
      0 <= i).
Proof.
  intros Hqi.
  assert (is_Some (ts_package_chunks d !! (q, i))
          \/ exists o, o ∈ ops /\ sent_index o = Some i /\ int4 i = true) as Hfrom.
  { revert d Hqi. induction ops as [|o ops IH]; intros d Hqi; [by left|].
    rewrite apply_ops_cons in Hqi.
    destruct (IH _ Hqi) as [Hold|(o' & Ho' & Hsent)].
    - destruct (apply_op_chunks o d) as [Heq|(q0 & i0 & data & Hsent & Hi4 & _ & Heq)];
        rewrite Heq in Hold; [by left|].
      destruct (decide ((q0, i0) = (q, i))) as [[= -> ->]|Hne].
      + right. exists o. split; [by left|done].
      + rewrite lookup_insert_ne in Hold by done. by left.
    - right. exists o'. split; [by right|done]. }
  split; [done|]. intros Hd Hops.
  destruct Hfrom as [Hold|(o & Ho & Hsent & _)]; [by apply (Hd q)|].
  rewrite Forall_forall in Hops. by apply (Hops o).
Qed.

Example chunk_minus_one_row :
  ts_package_chunks (apply_ops chunks_minus_one_and_three db0) !! (50%N, -1) = Some "AAAA".
Proof. vm_compute. reflexivity. Qed.

Lemma stored_indices_nonnegative_when_sent_so_witness :
  exists o, o ∈ chunks_minus_one_and_three /\ sent_index o = Some (-1).
Proof.
  destruct (stored_indices_nonnegative_when_sent_so chunks_minus_one_and_three db0 50%N (-1)
              (ex_intro _ "AAAA" chunk_minus_one_row))
    as [[[x Hx]|(o & Ho & Hsent & _)] _].
  - vm_compute in Hx. discriminate.
  - exists o. split; [exact Ho|exact Hsent].
Defined.

(** *** The order of statuses *)

(** C5 as stated fails: an entry completed by an inline upload is back at
    processing after a first chunk is sent to it. *)
Lemma first_chunk_reopens_completed_entry : ~ status_only_advances.
Proof.
  intros H.
  pose proof
    (H [UploadChunk (at_time 101 0%N) (chunk_of 50%N (Int 0) "AAAA" (Int 2)) acme]
       (apply_op db0 (Upload (at_time 100 50%N) (upload_of (Some "UEsDBA==")) acme))
       50%N _ _ eq_refl eq_refl) as Hle.
  vm_compute in Hle. lia.
Qed.

Lemma apply_op_status o d q en :
  ts_sync_queue d !! q = Some en ->
  exists en',
    ts_sync_queue (apply_op d o) !! q = Some en'
    /\ (status en' = status en
        \/ status en' = completed
        \/ status en' = processing /\ (status en = completed -> reopens o d = true)).
Proof.
  intros Hen.
  destruct (apply_op_effect o d)
    as [Hq _|id e c pid m blob Hfresh Hq _
       |e req c q0 en0 i data declared n _ _ Ht Hen0 Hq _
       |q0 en0 e n size Ht Hen0 _ Hq _];
    rewrite Hq.
  - exists en. split; [done|by left].
  - exists en. split; [|by left].
    rewrite lookup_insert_ne; [done|]. intros ->. congruence.
  - destruct (decide (q0 = q)) as [->|Hne].
    + rewrite lookup_insert_eq. eexists. split; [done|].
      assert (en0 = en) as -> by congruence.
      destruct (first_chunk o) eqn:Hfirst; simpl; [|by left].
      right. right. split; [done|]. intros Hc.
      unfold reopens. rewrite Hfirst, Ht, Hen. simpl. by apply bool_decide_eq_true.
    + rewrite lookup_insert_ne by done. exists en. split; [done|by left].
  - destruct (decide (q0 = q)) as [->|Hne].
    + rewrite lookup_insert_eq. eexists. split; [done|]. right. by left.
    + rewrite lookup_insert_ne by done. exists en. split; [done|by left].
Qed.

(** C5, amended: under every sequence of upload, upload-chunk and
    upload-complete operations a queue entry stays in the table and never
    returns to pending; and its status only advances along pending,
    processing, completed provided no first chunk (chunk_index 0 with a
    total_chunks) is addressed to an entry that is completed at that
    moment.  The handler does not refuse such a request: it sets the
    entry's status to processing whatever it was. *)
Theorem status_advances_unless_reopened ops d q en :
  ts_sync_queue d !! q = Some en ->
  exists en',
    ts_sync_queue (apply_ops ops d) !! q = Some en'
    /\ (status en <> pending -> status en' <> pending)
    /\ (never reopens ops d -> (rank (status en) <= rank (status en'))%nat).
Proof.
  revert d en. induction ops as [|o ops IH]; intros d en Hen.
  - exists en. by repeat split.
  - rewrite apply_ops_cons.
    destruct (apply_op_status o d q en Hen) as (en1 & Hen1 & Hstep).
    destruct (IH _ _ Hen1) as (en' & Hen' & Hpending & Hrank).
    exists en'. split; [done|]. split.
    + intros Hne. apply Hpending.
      destruct Hstep as [->|[->|[-> _]]]; done.
    + intros [Hno Hrest]. specialize (Hrank Hrest).
      destruct Hstep as [Heq|[Heq|[Heq Hre]]].
      * by rewrite <- Heq.
      * rewrite Heq in Hrank. simpl in Hrank. destruct (status en); simpl; lia.
      * rewrite Heq in Hrank. simpl in Hrank.
        destruct (status en) eqn:Hst; simpl; try lia.
        rewrite Hre in Hno; done.
Qed.

Example db_two_uploads_entry :
  ts_sync_queue db_two_uploads !! 51%N =
    Some (new_entry (at_time 200 51%N) acme 7%N
            (JObj [("components", JObj [("flows", JArr [JStr "f1"])])]) None).
Proof. vm_compute. reflexivity. Qed.

Example chunk_then_complete_never_reopens :
  never reopens chunk_then_complete db_two_uploads.
Proof. repeat split; vm_compute; reflexivity. Qed.

Lemma status_advances_unless_reopened_witness :
  exists en',
    ts_sync_queue (apply_ops chunk_then_complete db_two_uploads) !! 51%N = Some en'
    /\ (rank pending <= rank (status en'))%nat.
Proof.
  destruct (status_advances_unless_reopened chunk_then_complete db_two_uploads 51%N _
              db_two_uploads_entry)
    as (en' & Hen' & _ & Hrank).
  exists en'. split; [exact Hen'|].
  exact (Hrank chunk_then_complete_never_reopens).
Defined.

(** *** Inline data and chunks *)













(** The handlers never store an empty string as package data, so on the
    states they produce "has inline data" and "package_data is not NULL"
    are the same thing. *)
Lemma package_data_never_empty ops d :
  (forall q en, ts_sync_queue d !! q = Some en -> package_data en <> Some "") ->
  forall q en, ts_sync_queue (apply_ops ops d) !! q = Some en -> package_data en <> Some "".
Proof.
  revert d. induction ops as [|o ops IH]; intros d Hd; [done|].
  rewrite apply_ops_cons. apply IH. intros q en.
  destruct (apply_op_effect o d)
    as [Hq _|id e c pid m blob _ Hq _
       |e req c q0 en0 i data declared n _ _ _ Hen0 Hq _
       |q0 en0 e n size _ Hen0 _ Hq _];
    rewrite Hq; [apply Hd| | |].
  all: intros [[-> <-]|[_ Hen]]%lookup_insert_Some; [|by apply (Hd q)].
  - unfold new_entry, given. simpl. destruct blob as [s|]; [|done].
    destruct (s =? "") eqn:Hs; simpl; [done|]. apply String.eqb_neq in Hs. congruence.
  - specialize (Hd _ _ Hen0). by destruct (first_chunk o).
  - by specialize (Hd _ _ Hen0).
Qed.

(** ** The API-key gate *)

Lemma filter_none {A} (f : A -> bool) (l : list A) :
  (forall x, x ∈ l -> f x = false) -> List.filter f l = [].
Proof.
  induction l as [|x l IH]; intros Hl; [done|]. simpl.
  rewrite (Hl x) by left. apply IH. intros y Hy. apply Hl. by right.
Qed.

(** A key that no active or trial customer row matches is answered 401
    "Invalid API key", and nothing is written. *)
Lemma unmatched_key_is_invalid hashApiKey other e req d key :
  (method req =? "OPTIONS") = false ->
  is_action (action_of req) "register" = false ->
  is_action (action_of req) "setup-chunks-table" = false ->
  x_api_key req = Some key ->
  key <> "" ->
  (forall c, c ∈ ts_customers d -> key_matches (hashApiKey key) c = false) ->
  handler hashApiKey other e req d =
    ({| status_code := 401; json_body := Error "Invalid API key" |}, d).
Proof.
  intros Hm Hreg Hsetup Hkey Hne Hnone.
  unfold handler, route. rewrite Hm, Hreg, Hsetup, Hkey.
  assert (given (Some key) = true) as -> by (apply given_Some; eauto).
  unfold validateApiKey. unfold_monad. simpl.
  by rewrite (filter_none _ _ Hnone).
Qed.

(** C10: a request to an action other than register and
    setup-chunks-table (a preflight OPTIONS request is answered before any
    action is looked at) that presents an X-API-Key whose hash is that of
    a customer row with a subscription_status other than active and trial
    is answered 401 "Invalid API key", with the database unchanged; the
    reply is the one given when the key's hash is that of no customer
    row. *)
Theorem suspended_key_is_rejected_like_unknown hashApiKey other e req d key c :
  method req <> "OPTIONS" ->
  is_action (action_of req) "register" = false ->
  is_action (action_of req) "setup-chunks-table" = false ->
  x_api_key req = Some key ->
  key <> "" ->
  c ∈ ts_customers d ->
  api_key_hash c = hashApiKey key ->
  subscription_status c <> "active" ->
  subscription_status c <> "trial" ->
  (forall c', c' ∈ ts_customers d -> api_key_hash c' = api_key_hash c -> c' = c) ->
  handler hashApiKey other e req d =
    ({| status_code := 401; json_body := Error "Invalid API key" |}, d)
  /\ forall d0,
       (forall c0, c0 ∈ ts_customers d0 -> api_key_hash c0 <> hashApiKey key) ->
       (handler hashApiKey other e req d0).1 = (handler hashApiKey other e req d).1
       /\ (handler hashApiKey other e req d0).2 = d0.
Proof.
  intros Hm Hreg Hsetup Hkey Hne Hc Hhash Hactive Htrial Huniq.
  apply String.eqb_neq in Hm.
  assert (handler hashApiKey other e req d =
            ({| status_code := 401; json_body := Error "Invalid API key" |}, d)) as Hd.
  { apply (unmatched_key_is_invalid _ _ _ _ _ key); try done.
    intros c' Hc'. unfold key_matches.
    destruct (api_key_hash c' =? hashApiKey key) eqn:Heq; [simpl|done].
    apply String.eqb_eq in Heq. rewrite (Huniq c') by congruence.
    apply String.eqb_neq in Hactive, Htrial. by rewrite Hactive, Htrial. }
  split; [done|]. intros d0 Hd0. rewrite Hd.
  rewrite (unmatched_key_is_invalid _ _ _ _ d0 key); try done.
  intros c0 Hc0. unfold key_matches.
  apply Hd0, String.eqb_neq in Hc0. by rewrite Hc0.
Qed.

Lemma suspended_key_is_rejected_like_unknown_witness :
  handler (String.append "sha256:") not_embedded (at_time 100 50%N)
    (upload_with_key "ts_live_9f") db_with_suspended
  = ({| status_code := 401; json_body := Error "Invalid API key" |}, db_with_suspended).
Proof.
  apply (suspended_key_is_rejected_like_unknown (String.append "sha256:") not_embedded
           (at_time 100 50%N) (upload_with_key "ts_live_9f") db_with_suspended
           "ts_live_9f" suspended); try reflexivity; try discriminate.
  - right. left.
  - intros c' [->|[->|Hc']%elem_of_cons]%elem_of_cons; [discriminate|done|].
    by apply elem_of_nil in Hc'.
Defined.

End TenantSyncSpec.

(* ===================================================================== *)
(** * Properties of the flow generator                                    *)
(* ===================================================================== *)

Module GenerateFlowSpec.
Import JS Handler GenerateFlow.

(** ** Sample data *)

Definition heavy_user (tier : string) : user :=
  {| subscription_tier := Some tier; flows_generated_this_month := Some 5;
     total_flows_generated := Some 40; updated_at := 0 |}.

Definition world_of (tier : string) : world :=
  {| users := {[ 9%N := heavy_user tier ]}; flows := ∅; usage_logs := [];
     llm_requests := [] |}.

Definition parse_empty_object (s : string) : option json :=
  if s =? "{}" then Some (JObj []) else None.

Definition claude : env :=
  {| ANTHROPIC_API_KEY := Some "sk-ant";
     fetch_messages := fun _ _ => Content [{| block_type := "text"; block_text := Some "{}" |}];
     read_jsonb := Ok;
     elapsed_ms := 1200; new_flow_id := 77%N; CURRENT_TIMESTAMP := 500 |}.

Definition generate_request : request :=
  {| method := "POST";
     req_body := Some {| prompt := Some "Email me when a file is added";
                         flowName := None; userId := Some 9%N |} |}.

(** The limit of each tier the table names, and of a tier neither the
    table nor [Object.prototype] names. *)
Lemma limit_of_free : limit_of (Some "free") = Limit 3.
Proof. reflexivity. Qed.

Lemma limit_of_pro : limit_of (Some "pro") = Limit 50.
Proof. reflexivity. Qed.

Lemma limit_of_enterprise : limit_of (Some "enterprise") = Limit 999999.
Proof. reflexivity. Qed.

Lemma limit_of_null : limit_of None = Limit 3.
Proof. reflexivity. Qed.

Lemma limit_of_other tier :
  own_property tier limits = None ->
  existsb (String.eqb tier) Object_prototype = false ->
  limit_of (Some tier) = Limit 3.
Proof.
  intros Hown Hproto. unfold limit_of.
  change (default "null" (Some tier)) with tier. by rewrite Hown, Hproto.
Qed.

(** A user at or over a numeric limit is turned away with 429 before the
    LLM API is called and before anything is written. *)
Lemma limit_reached_is_rejected trim JSON_parse e req w b p id user limit used :
  method req = "POST" ->
  req_body req = Some b ->
  prompt b = Some p ->
  p <> "" ->
  String.length (trim p) <> 0%nat ->
  userId b = Some id ->
  users w !! id = Some user ->
  limit_of (subscription_tier user) = Limit limit ->
  flows_generated_this_month user = Some used ->
  limit <= used ->
  handler trim JSON_parse e req w =
    ({| status_code := 429;
        json_body := UsageLimitExceeded (Limit limit) (Some used) (subscription_tier user) |},
     w).
Proof.
  intros Hm Hb Hp Hne Htrim Hid Huser Hlimit Hused Hle.
  unfold handler, generate. rewrite Hm. simpl. rewrite Hb, Hp. simpl.
  assert ((p =? "") = false) as -> by by apply String.eqb_neq.
  simpl. assert ((String.length (trim p) =? 0)%nat = false) as ->
    by by apply Nat.eqb_neq.
  rewrite Hid. unfold bind, select. rewrite Huser, Hlimit, Hused. simpl.
  assert ((limit - used <=? 0)%Z = true) as -> by (apply Z.leb_le; lia).
  reflexivity.
Qed.

(** A tier named like a property of [Object.prototype] has no numeric
    limit, and no count exhausts it. *)
Lemma inherited_tier_is_never_exhausted tier used :
  existsb (String.eqb tier) Object_prototype = true ->
  limit_of (Some tier) = Inherited tier
  /\ exhausted (remaining_of (limit_of (Some tier)) used) = false.
Proof.
  intros Hproto. unfold limit_of.
  change (default "null" (Some tier)) with tier.
  assert (own_property tier limits = None) as ->.
  { unfold own_property, limits.
    destruct ("free" =? tier) eqn:H1;
      [apply String.eqb_eq in H1; subst; vm_compute in Hproto; discriminate|].
    destruct ("pro" =? tier) eqn:H2;
      [apply String.eqb_eq in H2; subst; vm_compute in Hproto; discriminate|].
    destruct ("enterprise" =? tier) eqn:H3;
      [apply String.eqb_eq in H3; subst; vm_compute in Hproto; discriminate|].
    done. }
  by rewrite Hproto.
Qed.

(** *** The limit on sample users *)

Example free_user_over_limit_is_rejected :
  handler (fun s => s) parse_empty_object claude generate_request (world_of "free")
  = ({| status_code := 429;
        json_body := UsageLimitExceeded (Limit 3) (Some 5) (Some "free") |},
     world_of "free").
Proof.
  apply (limit_reached_is_rejected _ _ _ _ _
           {| prompt := Some "Email me when a file is added";
              flowName := None; userId := Some 9%N |}
           "Email me when a file is added" 9%N
           (heavy_user "free") 3 5); try reflexivity; try discriminate; lia.
Qed.

(** C7 fails for a tier named like an inherited property.  The checkout
    handler copies any tier string it is sent to the user row, and
    [limits["constructor"]] is a function, not a number: a user whose
    subscription_tier is [constructor], with 5 flows generated this month
    (more than the default limit of 3), is not rejected; the LLM API is
    called, a flow row is inserted and the user's counts are incremented.
    For the tiers of the table and for every tier that [Object.prototype]
    does not name, [limit_reached_is_rejected] gives the 429 of the
    claim. *)
Theorem inherited_tier_bypasses_limit :
  let r := handler (fun s => s) parse_empty_object claude generate_request
             (world_of "constructor") in
  status_code r.1 = 200
  /\ llm_requests r.2 = [("Email me when a file is added", None)]
  /\ is_Some (flows r.2 !! 77%N)
  /\ (flows_generated_this_month <$> users r.2 !! 9%N) = Some (Some 6).
Proof. vm_compute. repeat split; try reflexivity. by eexists. Qed.

End GenerateFlowSpec.

(* ===================================================================== *)
(** * Further properties of the relay                                     *)
(* ===================================================================== *)

Module TenantSyncExtras.
Import JS Handler TenantSync TenantSyncSpec DownloadChunk.

Local Arguments truthy_int : simpl never.
Local Arguments is_zero : simpl never.
Local Arguments int4 : simpl never.
Local Arguments given : simpl never.
Local Arguments chunk_count : simpl never.
Local Arguments chunk_total_size : simpl never.

(** ** Vocabulary *)

(** The status with which each upload operation reports success. *)
Definition success_code (o : op) : Z :=
  match o with
  | Upload _ _ _ => 202
  | _ => 200
  end.

(** The four actions behind the gate that are embedded. *)
Definition embedded_action (a : option string) : bool :=
  is_action a "upload" || is_action a "upload-chunk"
  || is_action a "upload-complete" || is_action a "download".

Definition run_embedded (a : option string) (e : env) (req : request) (c : customer)
    : M db response :=
  if is_action a "upload" then handleUpload e req c
  else if is_action a "upload-chunk" then handleUploadChunk e req c
  else if is_action a "upload-complete" then handleUploadComplete e req c
  else handleDownload e req c.

(** A second active customer, and a state in which the first one has an
    entry with two chunks. *)
Definition initech : customer :=
  {| cust_id := 3%N; company_name := "Initech"; api_key_hash := "sha256:ts_live_aa";
     subscription_status := "active" |}.

Definition db_two_tenants : db :=
  {| ts_customers := [acme; initech];
     ts_sync_pairs := ts_sync_pairs db_two_chunks;
     ts_sync_queue := ts_sync_queue db_two_chunks;
     ts_package_chunks := ts_package_chunks db_two_chunks;
     ts_usage_metrics := ts_usage_metrics db_two_chunks;
     ts_audit_log := ts_audit_log db_two_chunks |}.

Definition chunk_with_key (key : string) (q : uuid) (i : jsint) (data : string) : request :=
  {| method := "POST"; query_action := Some "upload-chunk"; query_sync_pair_id := None;
     x_api_key := Some key; req_body := req_body (chunk_of q i data Undefined) |}.

Ltac refused := intros [= <-] ?; split; [done|simpl; auto].

(** ** The API key *)

(** X1: validateApiKey changes nothing and returns the first customer row
    whose api_key_hash is the hash of the key and whose
    subscription_status is active or trial; it returns null exactly when
    no row is both. *)
Theorem validateApiKey_returns_an_active_match hashApiKey key d :
  (validateApiKey hashApiKey key d).2 = d
  /\ match (validateApiKey hashApiKey key d).1 with
     | Ok (Some c) =>
         c ∈ ts_customers d
         /\ api_key_hash c = hashApiKey key
         /\ (subscription_status c = "active" \/ subscription_status c = "trial")
     | Ok None =>
         forall c, c ∈ ts_customers d -> api_key_hash c = hashApiKey key ->
                   subscription_status c <> "active" /\ subscription_status c <> "trial"
     | Thrown _ => False
     end.
Proof.
  split; [done|]. unfold validateApiKey, select. simpl.
  destruct (List.filter _ _) as [|c rest] eqn:Hf; simpl.
  - intros c Hc Hhash.
    assert (key_matches (hashApiKey key) c = false) as Hno.
    { destruct (key_matches (hashApiKey key) c) eqn:Hk; [|done].
      assert (In c (List.filter (key_matches (hashApiKey key)) (ts_customers d))) as Hin
        by (apply filter_In; split; [by apply list_elem_of_In|done]).
      rewrite Hf in Hin. destruct Hin. }
    unfold key_matches in Hno. rewrite Hhash, String.eqb_refl in Hno. simpl in Hno.
    apply orb_false_iff in Hno as [Ha Ht]. by apply String.eqb_neq in Ha, Ht.
  - assert (In c (List.filter (key_matches (hashApiKey key)) (ts_customers d))) as Hin
      by (rewrite Hf; by left).
    apply filter_In in Hin as [Hin Hk]. unfold key_matches in Hk.
    apply andb_true_iff in Hk as [Hh Hs]. apply String.eqb_eq in Hh.
    apply orb_true_iff in Hs as [Hs|Hs]; apply String.eqb_eq in Hs;
      (split; [by apply list_elem_of_In|split; [done|tauto]]).
Qed.

Lemma validateApiKey_found (hashApiKey : string -> string) (key : string) (d : db) :
  match head (List.filter (key_matches (hashApiKey key)) (ts_customers d)) with
  | Some c =>
      c ∈ ts_customers d
      /\ api_key_hash c = hashApiKey key
      /\ (subscription_status c = "active" \/ subscription_status c = "trial")
  | None => True
  end.
Proof.
  destruct (List.filter _ _) as [|c rest] eqn:Hf; simpl; [done|].
  assert (In c (List.filter (key_matches (hashApiKey key)) (ts_customers d))) as Hin
    by (rewrite Hf; by left).
  apply filter_In in Hin as [Hin Hk]. unfold key_matches in Hk.
  apply andb_true_iff in Hk as [Hh Hs]. apply String.eqb_eq in Hh.
  apply orb_true_iff in Hs as [Hs|Hs]; apply String.eqb_eq in Hs;
    (split; [by apply list_elem_of_In|split; [done|tauto]]).
Qed.

(** X2: behind the gate, a request that presents no X-API-Key, or an empty
    one, is answered 401 "API key required", and nothing is written. *)
Theorem request_without_key_is_refused hashApiKey other e req d :
  method req <> "OPTIONS" ->
  is_action (action_of req) "register" = false ->
  is_action (action_of req) "setup-chunks-table" = false ->
  given (x_api_key req) = false ->
  handler hashApiKey other e req d =
    ({| status_code := 401; json_body := Error "API key required" |}, d).
Proof.
  intros Hm Hreg Hsetup Hkey. apply String.eqb_neq in Hm.
  unfold handler, route. by rewrite Hm, Hreg, Hsetup, Hkey.
Qed.

Lemma request_without_key_is_refused_witness :
  handler (String.append "sha256:") not_embedded (at_time 100 50%N)
    (upload_of (Some "UEsDBA==")) db0
  = ({| status_code := 401; json_body := Error "API key required" |}, db0).
Proof.
  apply (request_without_key_is_refused (String.append "sha256:") not_embedded
           (at_time 100 50%N) (upload_of (Some "UEsDBA==")) db0);
    try reflexivity; discriminate.
Defined.

(** ** Tenants are kept apart *)

Lemma handleDownload_reads_only e req c d : (handleDownload e req c d).2 = d.
Proof.
  unfold handleDownload. destruct (query_sync_pair_id req); [|done].
  unfold_monad. simpl. destruct (select_package c _ d) as [[id pkg]|]; [|done].
  by repeat case_match.
Qed.

Lemma owns_entry_true c q d :
  owns_entry c q d = true <->
  exists en, ts_sync_queue d !! q = Some en /\ customer_id en = cust_id c.
Proof.
  unfold owns_entry. destruct (ts_sync_queue d !! q) as [en|].
  - rewrite bool_decide_eq_true. split; [eauto|]. by intros (? & [= <-] & ?).
  - split; [done|]. by intros (? & ? & _).
Qed.

(** A call made in the name of a customer leaves every queue entry of
    another customer, and its chunks, as they are. *)
Lemma foreign_call_keeps_entry a e req c d q en :
  cust_id c <> customer_id en ->
  ts_sync_queue d !! q = Some en ->
  ts_sync_queue (run_embedded a e req c d).2 !! q = Some en
  /\ forall i, ts_package_chunks (run_embedded a e req c d).2 !! (q, i)
               = ts_package_chunks d !! (q, i).
Proof.
  intros Hc Hen. unfold run_embedded.
  destruct (is_action a "upload").
  { destruct (handleUpload_effect e req c d) as [->|(pid & m & blob & Hf & -> & ->)];
      [done|].
    split; [|done]. rewrite lookup_insert_ne; [done|]. intros Heq. congruence. }
  destruct (is_action a "upload-chunk").
  { destruct (handleUploadChunk_effect e req c d)
      as [[_ ->]|(b & q0 & i0 & data & Hacc & _ & ->)]; [done|].
    destruct Hacc as (_ & _ & _ & _ & _ & _ & _ & Hown & _).
    apply owns_entry_true in Hown as (en0 & Hen0 & Hc0).
    assert (q0 <> q) as Hne by (intros ->; congruence).
    rewrite chunk_applied_queue, chunk_applied_chunks.
    split; [by rewrite lookup_alter_ne|].
    intros i. rewrite lookup_insert_ne; [done|]. congruence. }
  destruct (is_action a "upload-complete").
  { destruct (handleUploadComplete_effect e req c d)
      as [[_ ->]|(q0 & en0 & Hacc & ->)]; [done|].
    destruct Hacc as (_ & _ & Hen0 & Hc0).
    assert (q0 <> q) as Hne by (intros ->; congruence).
    simpl. split; [by rewrite lookup_alter_ne|done]. }
  by rewrite handleDownload_reads_only.
Qed.

Lemma route_embedded hashApiKey other e req :
  embedded_action (action_of req) = true ->
  route hashApiKey other e req =
    if negb (given (x_api_key req)) then reply 401 (Error "API key required") else
    let* customer := validateApiKey hashApiKey (default "" (x_api_key req)) in
    match customer with
    | None => reply 401 (Error "Invalid API key")
    | Some c => run_embedded (action_of req) e req c
    end.
Proof.
  unfold embedded_action, route, dispatch, run_embedded, is_action.
  destruct (action_of req) as [a|]; [|done]. intros Ha.
  destruct (a =? "upload") eqn:H1; [by apply String.eqb_eq in H1 as ->|].
  destruct (a =? "upload-chunk") eqn:H2; [by apply String.eqb_eq in H2 as ->|].
  destruct (a =? "upload-complete") eqn:H3; [by apply String.eqb_eq in H3 as ->|].
  destruct (a =? "download") eqn:H4; [by apply String.eqb_eq in H4 as ->|done].
Qed.

(** X3: through the router, a request to upload, upload-chunk,
    upload-complete or download cannot touch another tenant's data: a
    queue entry, and every chunk stored for it, is left as it is unless
    the presented key is that of an active or trial customer who owns the
    entry. *)
Theorem router_keeps_other_tenants_data hashApiKey other e req d q en :
  embedded_action (action_of req) = true ->
  ts_sync_queue d !! q = Some en ->
  (forall key c,
     x_api_key req = Some key -> c ∈ ts_customers d ->
     api_key_hash c = hashApiKey key ->
     subscription_status c = "active" \/ subscription_status c = "trial" ->
     cust_id c <> customer_id en) ->
  ts_sync_queue (handler hashApiKey other e req d).2 !! q = Some en
  /\ forall i, ts_package_chunks (handler hashApiKey other e req d).2 !! (q, i)
               = ts_package_chunks d !! (q, i).
Proof.
  intros Ha Hen Hforeign. unfold handler.
  destruct (method req =? "OPTIONS"); [done|].
  rewrite (route_embedded _ _ _ _ Ha).
  destruct (given (x_api_key req)) eqn:Hkey; [|done]. simpl.
  apply given_Some in Hkey as (key & Hkey & _). rewrite Hkey. simpl.
  pose proof (validateApiKey_found hashApiKey key d) as Hv.
  unfold bind. unfold validateApiKey, select in *. simpl in *.
  destruct (head _) as [c|]; [|done].
  destruct Hv as (Hin & Hhash & Hst).
  destruct (foreign_call_keeps_entry (action_of req) e req c d q en) as [Hq Hch];
    [by eapply Hforeign|done|].
  by destruct (run_embedded (action_of req) e req c d) as [[r|msg] d'].
Qed.

Example db_two_tenants_entry :
  ts_sync_queue db_two_tenants !! 50%N =
    Some {| customer_id := 1%N; sync_pair_id := 7%N; q_direction := inbound;
            manifest := JObj [("components", JObj [("flows", JArr [JStr "f1"])])];
            status := processing; package_data := None; package_size_bytes := 0;
            total_chunks := 5; chunks_received := 2; created_at := 100;
            processing_completed_at := None |}.
Proof. vm_compute. reflexivity. Qed.

Lemma router_keeps_other_tenants_data_witness :
  ts_package_chunks
    (handler (String.append "sha256:") not_embedded (at_time 300 0%N)
       (chunk_with_key "ts_live_aa" 50%N (Int 0) "XXXX") db_two_tenants).2
    !! (50%N, 0)
  = ts_package_chunks db_two_tenants !! (50%N, 0).
Proof.
  apply (router_keeps_other_tenants_data (String.append "sha256:") not_embedded
           (at_time 300 0%N) (chunk_with_key "ts_live_aa" 50%N (Int 0) "XXXX")
           db_two_tenants 50%N _ eq_refl db_two_tenants_entry).
  intros key c [= <-] [->|[->|Hc]%elem_of_cons]%elem_of_cons Hhash _;
    [discriminate Hhash|discriminate|by apply elem_of_nil in Hc].
Defined.

(** ** Checks come before writes *)

Example chunk_for_unknown_entry :
  (handleUploadChunk (at_time 103 0%N) (chunk_of 99%N (Int 0) "AAAA" (Int 5)) acme
     db_two_chunks).1
  = Ok {| status_code := 404; json_body := Error "Queue entry not found" |}.
Proof. vm_compute. reflexivity. Qed.

(** X4: a refused call writes nothing.  Each of upload, upload-chunk and
    upload-complete makes its checks (method, required fields, ownership)
    before its first write: whenever the handler answers with a status
    other than its success status (202 for upload, 200 for the other
    two), that status is 400, 404 or 405 and every table is as it was. *)
Theorem refused_upload_operation_writes_nothing o d r :
  (run_op o d).1 = Ok r ->
  status_code r <> success_code o ->
  apply_op d o = d
  /\ (status_code r = 400 \/ status_code r = 404 \/ status_code r = 405).
Proof.
  destruct o as [e req c|e req c|e req c]; unfold apply_op; simpl.
  - unfold handleUpload. destruct (negb (method req =? "POST")); [refused|].
    unfold_monad. destruct (req_body req) as [b|]; [simpl|done].
    destruct (body_sync_pair_id b) as [pid|]; [|refused].
    destruct (body_manifest b) as [m|]; [|refused].
    destruct (truthy m); [simpl|refused].
    destruct (owns_pair c pid d); [simpl|refused].
    destruct (ts_sync_queue d !! new_uuid e); [done|]. simpl. by intros [= <-].
  - unfold handleUploadChunk. destruct (negb (method req =? "POST")); [refused|].
    unfold_monad. destruct (req_body req) as [b|]; [simpl|done].
    destruct (body_queue_id b) as [q|]; [|refused].
    destruct (chunk_index b) as [| |i] eqn:Hi; [refused| |].
    + destruct (given (chunk_data b)); simpl; [|refused].
      destruct (owns_entry c q d); simpl; [|refused].
      rewrite andb_false_r. simpl. done.
    + destruct (given (chunk_data b)); simpl; [|refused].
      destruct (owns_entry c q d); simpl; [|refused].
      destruct (truthy_int (body_total_chunks b) && is_zero (Int i)) eqn:Hc; simpl.
      * destruct (body_total_chunks b) as [| |t]; [done|done|].
        destruct (int4 t); simpl; [|done].
        assert (i = 0) as -> by (apply andb_true_iff in Hc as [_ Hz]; by apply is_zero_Int).
        change (int4 0) with true. simpl. by intros [= <-].
      * destruct (int4 i); simpl; [|done]. by intros [= <-].
  - unfold handleUploadComplete. destruct (negb (method req =? "POST")); [refused|].
    unfold_monad. destruct (req_body req) as [b|]; [simpl|done].
    destruct (body_queue_id b) as [q|]; [simpl|refused].
    destruct (ts_sync_queue d !! q) as [en|]; [|refused].
    destruct (bool_decide (customer_id en = cust_id c)); [|refused].
    simpl. by intros [= <-].
Qed.

Lemma refused_upload_operation_writes_nothing_witness :
  apply_op db_two_chunks
    (UploadChunk (at_time 103 0%N) (chunk_of 99%N (Int 0) "AAAA" (Int 5)) acme)
  = db_two_chunks.
Proof.
  apply (refused_upload_operation_writes_nothing
           (UploadChunk (at_time 103 0%N) (chunk_of 99%N (Int 0) "AAAA" (Int 5)) acme)
           db_two_chunks _ chunk_for_unknown_entry).
  simpl. lia.
Defined.

(** ** Metering and audit of an upload *)

(** X5: an accepted upload counts as one sync initiated by the customer
    on that day (the counter starts at 1 and otherwise grows by one, no
    other counter changes) and appends one audit row that names the new
    queue entry, whether a package came with it, its size and the number
    of flows of the manifest; customers and pairs are not written. *)
Theorem accepted_upload_is_metered_and_audited e req c d b pid m :
  method req = "POST" ->
  req_body req = Some b ->
  body_sync_pair_id b = Some pid ->
  body_manifest b = Some m ->
  truthy m = true ->
  owns_pair c pid d = true ->
  ts_sync_queue d !! new_uuid e = None ->
  let d' := (handleUpload e req c d).2 in
  ts_usage_metrics d' !! (cust_id c, today e) =
    Some (default 0 (ts_usage_metrics d !! (cust_id c, today e)) + 1)
  /\ (forall k, k <> (cust_id c, today e) ->
               ts_usage_metrics d' !! k = ts_usage_metrics d !! k)
  /\ ts_audit_log d' =
       (ts_audit_log d ++
        [{| audit_customer_id := cust_id c; audit_sync_pair_id := Some pid;
            audit_action := "sync_upload_received";
            audit_details_of :=
              UploadReceived (new_uuid e) (given (package_base64 b))
                (package_size_bytes (new_entry e c pid m (package_base64 b)))
                (manifest_flows m) |}])%list
  /\ ts_customers d' = ts_customers d
  /\ ts_sync_pairs d' = ts_sync_pairs d.
Proof.
  intros Hm Hb Hp Hman Ht Hown Hfresh d'. subst d'.
  unfold handleUpload. rewrite (method_POST _ Hm).
  unfold_monad. rewrite Hb. simpl. rewrite Hp, Hman, Ht. simpl. rewrite Hown. simpl.
  rewrite Hfresh. simpl.
  split.
  { destruct (ts_usage_metrics d !! (cust_id c, today e)); by rewrite lookup_insert_eq. }
  split.
  { intros k Hk.
    destruct (ts_usage_metrics d !! (cust_id c, today e)); by rewrite lookup_insert_ne. }
  done.
Qed.

Lemma accepted_upload_is_metered_and_audited_witness :
  ts_usage_metrics
    (handleUpload (at_time 100 50%N) (upload_of (Some "UEsDBA==")) acme db0).2
    !! (1%N, 20000) = Some 1.
Proof.
  exact (proj1 (accepted_upload_is_metered_and_audited (at_time 100 50%N)
                  (upload_of (Some "UEsDBA==")) acme db0 _ 7%N _
                  eq_refl eq_refl eq_refl eq_refl eq_refl eq_refl eq_refl)).
Defined.

(** The number of flows reported in the audit row: the length of
    [manifest.components.flows] when that is an array, and 0 when the
    manifest has no [components]. *)
Lemma manifest_flows_of_array fields cfields flows :
  assoc "components" fields = Some (JObj cfields) ->
  assoc "flows" cfields = Some (JArr flows) ->
  manifest_flows (JObj fields) = JNum (Z.of_nat (List.length flows)).
Proof.
  intros Hc Hf. unfold manifest_flows. simpl. rewrite Hc. simpl. rewrite Hf. simpl.
  destruct flows as [|f flows]; [done|].
  change (truthy (JNum (Z.of_nat (List.length (f :: flows)))))
    with (negb (Z.of_nat (S (List.length flows)) =? 0)%Z).
  destruct (Z.eqb_spec (Z.of_nat (S (List.length flows))) 0) as [H0|_]; [lia|done].
Qed.

Lemma manifest_flows_without_components fields :
  assoc "components" fields = None -> manifest_flows (JObj fields) = JNum 0.
Proof. intros Hc. unfold manifest_flows. simpl. by rewrite Hc. Qed.

(** ** Counting chunks *)

Lemma chunk_count_size q d :
  chunk_count q d =
    Z.of_nat (size (filter (fun kv : uuid * Z * string => kv.1.1 = q) (ts_package_chunks d))).
Proof. unfold chunk_count, chunks_of. by rewrite length_map_to_list. Qed.

Lemma chunk_count_store q i data d :
  chunk_count q (store_chunk q i data d) =
    if decide (is_Some (ts_package_chunks d !! (q, i)))
    then chunk_count q d else chunk_count q d + 1.
Proof.
  rewrite !chunk_count_size, store_chunk_chunks.
  rewrite (map_filter_insert_True (fun kv : uuid * Z * string => kv.1.1 = q)) by done.
  destruct (decide (is_Some (ts_package_chunks d !! (q, i)))) as [[old Hold]|Hnone].
  - rewrite map_size_insert_Some; [done|].
    exists old. by apply (map_lookup_filter_Some_2 (fun kv : uuid * Z * string => kv.1.1 = q)).
  - rewrite map_size_insert_None; [lia|].
    apply (map_lookup_filter_None_2 (fun kv : uuid * Z * string => kv.1.1 = q)).
    left. by apply eq_None_not_Some.
Qed.

Lemma handleUploadChunk_reply e req c d b q i data :
  chunk_accepted req c d b q i data ->
  exists total,
    (handleUploadChunk e req c d).1 =
      Ok {| status_code := 200;
            json_body := ChunkStored i (chunk_count q (store_chunk q i data d)) total |}.
Proof.
  intros (Hm & Hb & Hq & Hi & Hi4 & Hd & Hne & Hown & Htot).
  unfold handleUploadChunk. rewrite (method_POST _ Hm).
  unfold_monad. rewrite Hb. simpl. rewrite Hq, Hi.
  assert (given (chunk_data b) = true) as -> by (apply given_Some; eauto).
  simpl. rewrite Hown. simpl.
  destruct (truthy_int (body_total_chunks b) && is_zero (Int i)) eqn:Hc; simpl.
  - destruct (Htot eq_refl) as (t & Ht & Ht4). rewrite Ht in *.
    rewrite Ht4, Hi4, Hd. unfold_monad. simpl. eexists. f_equal.
  - rewrite Hi4, Hd. unfold_monad. simpl. eexists. f_equal.
Qed.

(** X6: after an accepted upload-chunk the entry's chunks_received, and
    the chunks_received of the reply, is the number of chunks stored for
    the entry: the chunk just sent and the chunks that were stored under
    another index.  That is one more than before when the index is new,
    and as many when the index was already stored.  No other queue entry
    and no chunk of another entry changes.  The chunks of the entry
    before the call are given by any list [rows] of them. *)
Theorem chunks_received_counts_stored_chunks e req c d b q i data rows :
  req_body req = Some b ->
  body_queue_id b = Some q ->
  chunk_index b = Int i ->
  chunk_data b = Some data ->
  code_of (handleUploadChunk e req c d).1 = Some 200 ->
  stored_chunks d q rows ->
  let d' := (handleUploadChunk e req c d).2 in
  let rows' := (i, data) :: filter (fun row => row.1 <> i) rows in
  let n' := Z.of_nat (List.length rows') in
  stored_chunks d' q rows'
  /\ (exists en', ts_sync_queue d' !! q = Some en' /\ chunks_received en' = n')
  /\ (exists total,
        (handleUploadChunk e req c d).1 =
          Ok {| status_code := 200; json_body := ChunkStored i n' total |})
  /\ n' = (if decide (is_Some (ts_package_chunks d !! (q, i)))
           then Z.of_nat (List.length rows) else Z.of_nat (List.length rows) + 1)
  /\ forall q',
       q' <> q ->
       ts_sync_queue d' !! q' = ts_sync_queue d !! q'
       /\ forall j, ts_package_chunks d' !! (q', j) = ts_package_chunks d !! (q', j).
Proof.
  intros Hb Hq Hi Hd H200 Hrows d' rows' n'.
  destruct (handleUploadChunk_effect e req c d)
    as [[Hno _]|(b0 & q0 & i0 & data0 & Hacc & _ & Hd')]; [done|].
  pose proof Hacc as (_ & Hb0 & Hq0 & Hi0 & _ & Hd0 & _ & Hown & _).
  assert (b0 = b) as -> by congruence.
  assert (q0 = q) as -> by congruence.
  assert (i0 = i) as -> by congruence.
  assert (data0 = data) as -> by congruence.
  fold d' in Hd'.
  assert (ts_package_chunks d' = <[(q, i) := data]> (ts_package_chunks d)) as Hchunks
    by (rewrite Hd'; apply chunk_applied_chunks).
  assert (stored_chunks d' q rows') as Hrows'.
  { destruct Hrows as [Hnd Hin]. split.
    - apply NoDup_cons. split; [|by apply NoDup_filter].
      rewrite list_elem_of_filter. simpl. tauto.
    - intros j x. subst rows'. rewrite elem_of_cons, list_elem_of_filter, Hin, Hchunks.
      rewrite lookup_insert_Some. simpl. split.
      + intros [[= -> ->]|[Hne Hx]]; [by left|right]. split; [congruence|done].
      + intros [[[= <-] <-]|[Hne Hx]]; [by left|right]. split; [congruence|done]. }
  assert (chunk_count q d' = n') as Hn' by by apply chunk_count_stored_chunks.
  assert (chunk_count q d' = chunk_count q (store_chunk q i data d)) as Hcount.
  { apply chunk_count_ext. by rewrite Hchunks. }
  apply owns_entry_true in Hown as (en & Hen & _).
  split; [done|]. split.
  { rewrite <- Hn', Hcount, Hd', chunk_applied_queue, lookup_alter_eq, Hen. simpl.
    eexists. split; [done|]. unfold chunk_entry. reflexivity. }
  split.
  { rewrite <- Hn', Hcount. by apply (handleUploadChunk_reply e req c d b q i data). }
  split.
  { rewrite <- Hn', Hcount, chunk_count_store.
    by rewrite (chunk_count_stored_chunks q d rows Hrows). }
  intros q' Hne. rewrite Hd', chunk_applied_queue, chunk_applied_chunks.
  split; [by rewrite lookup_alter_ne|].
  intros j. rewrite lookup_insert_ne; [done|]. congruence.
Qed.

Lemma chunks_received_counts_stored_chunks_witness :
  exists en',
    ts_sync_queue
      (handleUploadChunk (at_time 103 0%N) (chunk_of 50%N (Int 2) "CC" Undefined) acme
         db_two_chunks).2 !! 50%N = Some en'
    /\ chunks_received en' = 3.
Proof.
  destruct (chunks_received_counts_stored_chunks (at_time 103 0%N)
              (chunk_of 50%N (Int 2) "CC" Undefined) acme db_two_chunks _ 50%N 2 "CC"
              [(0, "AAAA"); (1, "BBB")]
              eq_refl eq_refl eq_refl eq_refl eq_refl db_two_chunks_rows)
    as (_ & (en' & Hen' & Hrecv) & _).
  exists en'. split; [exact Hen'|]. rewrite Hrecv. vm_compute. reflexivity.
Defined.

(** ** What is uploaded can be downloaded *)

Lemma latest_of_newest rows x :
  x ∈ rows ->
  (forall y, y ∈ rows -> y.1 = x.1 -> y = x) ->
  (forall y, y ∈ rows -> y.1 <> x.1 -> created_at y.2 < created_at x.2) ->
  latest rows = Some x.
Proof.
  intros Hx Hsame Holder.
  destruct (latest rows) as [best|] eqn:Hbest.
  - apply latest_is_newest in Hbest as [Hin Hmax].
    destruct (decide (best.1 = x.1)) as [Heq|Hne]; [by rewrite (Hsame best)|].
    specialize (Holder best Hin Hne). specialize (Hmax x Hx). lia.
  - apply latest_nil in Hbest. subst rows. by apply elem_of_nil in Hx.
Qed.

(** The download query returns the entry that is ready and was created
    after every other ready entry. *)
Lemma select_package_newest c pid d id en :
  ts_sync_queue d !! id = Some en ->
  ready c pid en ->
  (forall id' en',
     id' <> id -> ts_sync_queue d !! id' = Some en' -> ready c pid en' ->
     created_at en' < created_at en) ->
  select_package c pid d = Some (id, en).
Proof.
  intros Hen Hready Holder. unfold select_package. apply latest_of_newest.
  - by apply elem_of_ready_rows.
  - intros [id' en'] [Hen' _]%elem_of_ready_rows Hid. simpl in Hid. subst id'.
    congruence.
  - intros [id' en'] [Hen' Hready']%elem_of_ready_rows Hid. simpl in *.
    by apply (Holder id' en').
Qed.

Lemma select_package_ext c pid d1 d2 :
  ts_sync_queue d1 = ts_sync_queue d2 -> select_package c pid d1 = select_package c pid d2.
Proof. unfold select_package. by intros ->. Qed.

(** X7: a package uploaded inline is served back.  After an accepted
    upload with a non-empty package_base64, made later than every entry
    that was ready for the pair, a download of the pair by the same
    customer answers in mode inline with the new queue id, the manifest,
    the very blob, its length and the time of creation, and writes
    nothing. *)
Theorem inline_upload_is_served_back e e' req req' c d b pid m blob :
  method req = "POST" ->
  req_body req = Some b ->
  body_sync_pair_id b = Some pid ->
  body_manifest b = Some m ->
  truthy m = true ->
  owns_pair c pid d = true ->
  ts_sync_queue d !! new_uuid e = None ->
  package_base64 b = Some blob ->
  blob <> "" ->
  query_sync_pair_id req' = Some pid ->
  (forall id' en', ts_sync_queue d !! id' = Some en' -> ready c pid en' ->
                   created_at en' < now e) ->
  handleDownload e' req' c (handleUpload e req c d).2 =
    (Ok {| status_code := 200;
           json_body := Inline (new_uuid e) m blob (Z.of_nat (String.length blob)) (now e) |},
     (handleUpload e req c d).2).
Proof.
  intros Hm Hb Hp Hman Ht Hown Hfresh Hblob Hne Hpid Holder.
  destruct (handleUpload_accepted e req c d b pid m Hm Hb Hp Hman Ht Hown Hfresh)
    as (d' & Hrun & Hq & _).
  rewrite Hrun. simpl.
  destruct (new_entry_with_blob e c pid m blob Hne) as (Hdata & Hsize & Hst).
  assert (select_package c pid d' = Some (new_uuid e, new_entry e c pid m (Some blob)))
    as Hsel.
  { apply select_package_newest.
    - by rewrite Hq, Hblob, lookup_insert_eq.
    - by repeat split.
    - intros id' en' Hid. rewrite Hq, lookup_insert_ne by done.
      intros Hen' Hready. by apply (Holder id' en'). }
  unfold handleDownload. rewrite Hpid. unfold_monad. simpl. rewrite Hsel.
  rewrite Hdata, Hsize.
  assert (given (Some blob) = true) as -> by (apply given_Some; eauto). done.
Qed.

Lemma inline_upload_is_served_back_witness :
  (handleDownload (at_time 300 0%N) (download_of 7%N) acme
     (handleUpload (at_time 100 50%N) (upload_of (Some "UEsDBA==")) acme db0).2).1
  = Ok {| status_code := 200;
          json_body :=
            Inline 50%N (JObj [("components", JObj [("flows", JArr [JStr "f1"])])])
              "UEsDBA==" 8 100 |}.
Proof.
  rewrite (inline_upload_is_served_back (at_time 100 50%N) (at_time 300 0%N)
             (upload_of (Some "UEsDBA==")) (download_of 7%N) acme db0 _ 7%N _ "UEsDBA=="
             eq_refl eq_refl eq_refl eq_refl eq_refl eq_refl eq_refl eq_refl).
  - reflexivity.
  - discriminate.
  - reflexivity.
  - intros id' en' Hen'. vm_compute in Hen'. discriminate.
Defined.

(** X8: a completed chunked upload is announced.  When the owner
    completes an inbound entry that has no inline data and was created
    after every other entry ready for its pair, a download of the pair
    answers in mode chunked with the number of chunks stored for the
    entry and the sum of their lengths when at least one chunk is stored
    for it, and in mode manifest_only when none is.  The chunks of the
    entry are given by any list [rows] of them. *)
Theorem completed_entry_is_announced e e' req req' c d b q en rows :
  method req = "POST" ->
  req_body req = Some b ->
  body_queue_id b = Some q ->
  ts_sync_queue d !! q = Some en ->
  customer_id en = cust_id c ->
  q_direction en = inbound ->
  given (package_data en) = false ->
  query_sync_pair_id req' = Some (sync_pair_id en) ->
  (forall id' en',
     id' <> q -> ts_sync_queue d !! id' = Some en' -> ready c (sync_pair_id en) en' ->
     created_at en' < created_at en) ->
  stored_chunks d q rows ->
  handleDownload e' req' c (handleUploadComplete e req c d).2 =
    (Ok {| status_code := 200;
           json_body :=
             match rows with
             | [] => ManifestOnly q (manifest en) (created_at en)
             | _ :: _ =>
                 Chunked q (manifest en) (Z.of_nat (List.length rows)) (total_length rows)
                   (created_at en)
             end |},
     (handleUploadComplete e req c d).2).
Proof.
  intros Hm Hb Hq Hen Hc Hdir Hdata Hpid Holder Hrows.
  assert (complete_accepted req c d q en) as Hacc by (repeat split; eauto).
  rewrite (handleUploadComplete_accepted e _ _ _ _ _ Hacc). simpl.
  set (d' := complete_applied e c q en d).
  set (en' := mark_completed e (chunk_count q d) (chunk_total_size q d) en).
  assert (ts_sync_queue d' = alter (mark_completed e (chunk_count q d)
                                      (chunk_total_size q d)) q (ts_sync_queue d))
    as Hqueue by done.
  assert (select_package c (sync_pair_id en) d' = Some (q, en')) as Hsel.
  { apply select_package_newest.
    - by rewrite Hqueue, lookup_alter_eq, Hen.
    - by repeat split.
    - intros id' en0 Hid. rewrite Hqueue, lookup_alter_ne by done.
      intros Hen0 Hready. by apply (Holder id' en0). }
  unfold handleDownload. rewrite Hpid. unfold_monad. simpl. rewrite Hsel.
  subst en'. simpl. rewrite Hdata. simpl. rewrite andb_true_r, Z.gtb_ltb.
  rewrite (chunk_count_stored_chunks q d rows Hrows).
  rewrite (chunk_total_size_stored_chunks q d rows Hrows).
  destruct rows as [|row rows]; [done|].
  assert ((0 <? Z.of_nat (List.length (row :: rows)))%Z = true) as ->; [|done].
  apply Z.ltb_lt. simpl. lia.
Qed.

Lemma completed_entry_is_announced_witness :
  (handleDownload (at_time 300 0%N) (download_of 7%N) acme
     (handleUploadComplete (at_time 103 0%N) (complete_of 50%N) acme db_two_chunks).2).1
  = Ok {| status_code := 200;
          json_body :=
            Chunked 50%N (JObj [("components", JObj [("flows", JArr [JStr "f1"])])])
              2 7 100 |}.
Proof.
  rewrite (completed_entry_is_announced (at_time 103 0%N) (at_time 300 0%N)
             (complete_of 50%N) (download_of 7%N) acme db_two_chunks _ 50%N _
             [(0, "AAAA"); (1, "BBB")]
             eq_refl eq_refl eq_refl db_two_chunks_entry eq_refl eq_refl eq_refl eq_refl).
  - vm_compute. reflexivity.
  - intros id' en' Hid Hen'.
    assert (ts_sync_queue db_two_chunks !! id' = None) as Hnone.
    { assert (ts_sync_queue db_two_chunks =
                {[ 50%N := mark_processing 5
                             (set_chunks_received 2
                                (new_entry (at_time 100 50%N) acme 7%N
                                   (JObj [("components",
                                           JObj [("flows", JArr [JStr "f1"])])]) None)) ]})
        as -> by (vm_compute; reflexivity).
      by apply lookup_singleton_ne. }
    congruence.
  - exact db_two_chunks_rows.
Defined.

(** ** download-chunk *)

(** X9: a stored chunk is served back, to its owner only.  After an
    accepted upload-chunk with index [i] and data [data] for entry [q],
    a download-chunk of the same customer for [q] whose chunk_index
    string parseInt reads as [i] answers 200 with exactly that data; the
    same request in the name of a customer with another id is answered
    404 "Queue entry not found".  Neither writes anything. *)
Theorem stored_chunk_is_served_to_its_owner parseInt e req c c' d b q i data index :
  req_body req = Some b ->
  body_queue_id b = Some q ->
  chunk_index b = Int i ->
  chunk_data b = Some data ->
  code_of (handleUploadChunk e req c d).1 = Some 200 ->
  parseInt index = Some i ->
  cust_id c' <> cust_id c ->
  let d' := (handleUploadChunk e req c d).2 in
  let query := {| query_queue_id := Some q; query_chunk_index := Some index |} in
  handleDownloadChunk parseInt query c d' =
    (Ok {| chunk_status := 200; chunk_body := ChunkData q i data |}, d')
  /\ handleDownloadChunk parseInt query c' d' =
       (Ok {| chunk_status := 404; chunk_body := ChunkError "Queue entry not found" |}, d').
Proof.
  intros Hb Hq Hi Hd H200 Hparse Hother d' query.
  destruct (handleUploadChunk_effect e req c d)
    as [[Hno _]|(b0 & q0 & i0 & data0 & Hacc & _ & Hd')]; [done|].
  pose proof Hacc as (_ & Hb0 & Hq0 & Hi0 & Hi4 & Hd0 & _ & Hown & _).
  assert (b0 = b) as -> by congruence.
  assert (q0 = q) as -> by congruence.
  assert (i0 = i) as -> by congruence.
  assert (data0 = data) as -> by congruence.
  fold d' in Hd'.
  assert (owns_entry c q d' = true) as Hown'
    by (rewrite Hd', owns_entry_chunk_applied; done).
  assert (owns_entry c' q d' = false) as Hforeign.
  { apply owns_entry_true in Hown' as (en & Hen & Hc).
    unfold owns_entry. rewrite Hen. apply bool_decide_eq_false. congruence. }
  assert (ts_package_chunks d' !! (q, i) = Some data) as Hrow
    by (rewrite Hd', chunk_applied_chunks; apply lookup_insert_eq).
  unfold handleDownloadChunk, index_parameter. simpl. unfold_monad. simpl.
  rewrite Hown', Hforeign, Hparse, Hi4. simpl. by rewrite Hrow.
Qed.

Lemma stored_chunk_is_served_to_its_owner_witness :
  handleDownloadChunk (fun s => if s =? "1" then Some 1 else None)
    {| query_queue_id := Some 50%N; query_chunk_index := Some "1" |} acme
    (handleUploadChunk (at_time 102 0%N) (chunk_of 50%N (Int 1) "BBB" Undefined) acme
       db_two_chunks).2
  = (Ok {| chunk_status := 200; chunk_body := ChunkData 50%N 1 "BBB" |},
     (handleUploadChunk (at_time 102 0%N) (chunk_of 50%N (Int 1) "BBB" Undefined) acme
        db_two_chunks).2).
Proof.
  apply (stored_chunk_is_served_to_its_owner (fun s => if s =? "1" then Some 1 else None)
           (at_time 102 0%N) (chunk_of 50%N (Int 1) "BBB" Undefined) acme initech
           db_two_chunks _ 50%N 1 "BBB" "1" eq_refl eq_refl eq_refl eq_refl eq_refl eq_refl).
  discriminate.
Defined.

End TenantSyncExtras.

(* ===================================================================== *)
(** * Further properties of the flow generator                            *)
(* ===================================================================== *)

Module GenerateFlowExtras.
Import JS Handler GenerateFlow GenerateFlowSpec UsageLimit.

(** ** Vocabulary *)

(** The reply that carries a generated flow. *)
Definition is_generated (p : payload) : Prop :=
  match p with
  | Generated _ _ _ _ _ _ _ _ => True
  | _ => False
  end.

(** The user is under the limit. *)
Definition under_limit (u : user) : Prop :=
  exhausted (remaining_of (limit_of (subscription_tier u))
               (flows_generated_this_month u)) = false.

(** An environment in which the LLM API refuses the call. *)
Definition overloaded : env :=
  {| ANTHROPIC_API_KEY := Some "sk-ant";
     fetch_messages := fun _ _ => NotOk 429 "rate_limit_error";
     read_jsonb := Ok;
     elapsed_ms := 30; new_flow_id := 77%N; CURRENT_TIMESTAMP := 500 |}.

(** An environment in which the call to the LLM API fails. *)
Definition unreachable : env :=
  {| ANTHROPIC_API_KEY := Some "sk-ant";
     fetch_messages := fun _ _ => Rejected "fetch failed";
     read_jsonb := Ok;
     elapsed_ms := 30; new_flow_id := 77%N; CURRENT_TIMESTAMP := 500 |}.

(** An environment in which the LLM API answers with a JSON array. *)
Definition claude_list : env :=
  {| ANTHROPIC_API_KEY := Some "sk-ant";
     fetch_messages :=
       fun _ _ => Content [{| block_type := "text"; block_text := Some "[1]" |}];
     read_jsonb := Ok;
     elapsed_ms := 30; new_flow_id := 77%N; CURRENT_TIMESTAMP := 500 |}.

Definition parse_list (s : string) : option json :=
  if s =? "[1]" then Some (JArr [JNum 1]) else None.

Definition newline : string := String "010"%char "".

(** The reply that reports a reached limit. *)
Definition is_limit_reply (p : payload) : Prop :=
  match p with
  | UsageLimitExceeded _ _ _ => True
  | _ => False
  end.

(** [k] hundredths of a second are [ms] milliseconds, rounded half away
    from zero. *)
Definition rounds_to (ms k : Z) : Prop :=
  if decide (0 <= ms) then 10 * k - 5 <= ms < 10 * k + 5
  else 10 * k - 5 < ms <= 10 * k + 5.

(** The request is a POST with a prompt that is not blank. *)
Definition well_formed (trim : string -> string) (req : request) (b : body) (p : string)
    : Prop :=
  method req = "POST"
  /\ req_body req = Some b
  /\ prompt b = Some p
  /\ p <> ""
  /\ String.length (trim p) <> 0%nat.

(** What one call of the handler can do. *)
Inductive outcome (trim : string -> string) (e : env) (req : request) (w : world)
    (r : response * world) : Prop :=
| nothing_happened :
    r.2 = w -> ~ is_generated (json_body r.1) -> outcome trim e req w r
| asked b p id u :
    well_formed trim req b p -> userId b = Some id ->
    users w !! id = Some u -> under_limit u ->
    given (ANTHROPIC_API_KEY e) = true ->
    llm_requests r.2 = (llm_requests w ++ [(p, flowName b)])%list ->
    users r.2 = users w ->
    ~ is_generated (json_body r.1) ->
    outcome trim e req w r
| delivered b p id u :
    well_formed trim req b p -> userId b = Some id ->
    users w !! id = Some u -> under_limit u ->
    given (ANTHROPIC_API_KEY e) = true ->
    llm_requests r.2 = (llm_requests w ++ [(p, flowName b)])%list ->
    users r.2 = <[id := count_flow e u]> (users w) ->
    flows w !! new_flow_id e = None ->
    is_Some (flows r.2 !! new_flow_id e) ->
    status_code r.1 = 200 ->
    is_generated (json_body r.1) ->
    outcome trim e req w r.

(** ** Properties *)

Ltac quiet := apply nothing_happened; [done|simpl; tauto].
Ltac only_asked := eapply asked; try done; simpl; tauto.
Ltac thrown_after_asking Hu := simpl; rewrite Hu; simpl; only_asked.

Lemma handler_outcome trim JSON_parse e req w :
  outcome trim e req w (handler trim JSON_parse e req w).
Proof.
  unfold handler.
  destruct (method req =? "OPTIONS"); [quiet|].
  destruct (method req =? "POST") eqn:Hm; simpl; [|quiet].
  apply String.eqb_eq in Hm.
  unfold generate, log_error.
  destruct (req_body req) as [b|] eqn:Hb; [|quiet].
  destruct (prompt b) as [p|] eqn:Hp; [|quiet].
  unfold given at 1. simpl.
  destruct (p =? "") eqn:Hne; [quiet|]. simpl.
  apply String.eqb_neq in Hne.
  destruct (String.length (trim p) =? 0)%nat eqn:Htrim; [quiet|].
  apply Nat.eqb_neq in Htrim.
  assert (well_formed trim req b p) as Hwf by done.
  destruct (userId b) as [id|] eqn:Hid; [|quiet].
  unfold bind at 1. unfold select.
  destruct (users w !! id) as [u|] eqn:Hu; [|quiet].
  destruct (exhausted _) eqn:Hex; [quiet|].
  destruct (given (ANTHROPIC_API_KEY e)) eqn:Hkey; [simpl|quiet].
  unfold bind at 1. unfold call_llm.
  destruct (fetch_messages e p (flowName b)) as [msg|st err|content].
  - thrown_after_asking Hu.
  - only_asked.
  - destruct (given (first_text content)); [simpl|only_asked].
    destruct (JSON_parse _) as [parsed|]; [|only_asked].
    unfold bind at 1. unfold insert_flow. simpl.
    destruct (bind_jsonb _ e parsed) as [stored|message]; [|thrown_after_asking Hu].
    destruct (int4 _); simpl; [|thrown_after_asking Hu].
    destruct (varchar_255 _) as [stored_name|]; [|thrown_after_asking Hu].
    destruct (decimal_10_2 _) as [seconds|]; [|thrown_after_asking Hu].
    destruct (flows w !! new_flow_id e) eqn:Hfresh; [thrown_after_asking Hu|].
    unfold bind at 1. unfold increment_flow_count. simpl. rewrite Hu.
    destruct (fits _ && fits _).
    + simpl. eapply delivered; try done. simpl. rewrite lookup_insert_eq. by eexists.
    + thrown_after_asking Hu.
Qed.

(** ** Charging *)

(** X10: a user is charged exactly for a delivered flow.  Whatever the
    request and whatever the LLM API answers, the users table is left as
    it is unless the reply carries a generated flow (also when an error
    was thrown and logged); and when it does, the reply is a 200, the
    requesting user's two counters went up by one, and one new flow row
    was stored. *)
Theorem user_is_charged_only_for_a_delivered_flow trim JSON_parse e req w :
  let r := handler trim JSON_parse e req w in
  (~ is_generated (json_body r.1) -> users r.2 = users w)
  /\ (is_generated (json_body r.1) ->
      status_code r.1 = 200
      /\ flows w !! new_flow_id e = None
      /\ is_Some (flows r.2 !! new_flow_id e)
      /\ exists b id u,
           req_body req = Some b /\ userId b = Some id /\ users w !! id = Some u
           /\ users r.2 !! id =
                Some {| subscription_tier := subscription_tier u;
                        flows_generated_this_month :=
                          (fun n => n + 1) <$> flows_generated_this_month u;
                        total_flows_generated :=
                          (fun n => n + 1) <$> total_flows_generated u;
                        updated_at := CURRENT_TIMESTAMP e |}
           /\ forall id', id' <> id -> users r.2 !! id' = users w !! id').
Proof.
  intros r. subst r.
  destruct (handler_outcome trim JSON_parse e req w)
    as [Hw Hno|b p id u (Hm & Hb & Hp & _) Hid Hu Hunder Hkey Hllm Husers Hno
       |b p id u (Hm & Hb & Hp & _) Hid Hu Hunder Hkey Hllm Husers Hfresh Hflow H200 Hgen].
  - split; [by rewrite Hw|done].
  - split; [done|done].
  - split; [done|]. intros _. repeat (split; [done|]).
    exists b, id, u. repeat (split; [done|]). rewrite Husers. split.
    + by rewrite lookup_insert_eq.
    + intros id' Hne. by rewrite lookup_insert_ne.
Qed.

(** ** The LLM API is called sparingly *)

(** X11: one request makes at most one call to the LLM API, and makes it
    only for a POST with a prompt that is not blank, by an existing user
    who is under the limit of the tier, with the API key configured; the
    call carries the prompt and flow name of the request.  Every other
    request (a preflight, another method, a missing or blank prompt, a
    missing user id, an unknown user, a reached limit, no key) makes
    none. *)
Theorem llm_is_called_at_most_once_and_only_under_the_limit trim JSON_parse e req w :
  let r := handler trim JSON_parse e req w in
  llm_requests r.2 = llm_requests w
  \/ exists b p id u,
       method req = "POST"
       /\ req_body req = Some b /\ prompt b = Some p
       /\ p <> "" /\ String.length (trim p) <> 0%nat
       /\ userId b = Some id
       /\ users w !! id = Some u
       /\ exhausted (remaining_of (limit_of (subscription_tier u))
                       (flows_generated_this_month u)) = false
       /\ given (ANTHROPIC_API_KEY e) = true
       /\ llm_requests r.2 = (llm_requests w ++ [(p, flowName b)])%list.
Proof.
  intros r. subst r.
  destruct (handler_outcome trim JSON_parse e req w)
    as [Hw Hno|b p id u (Hm & Hb & Hp & Hne & Htrim) Hid Hu Hunder Hkey Hllm Husers Hno
       |b p id u (Hm & Hb & Hp & Hne & Htrim) Hid Hu Hunder Hkey Hllm Husers
          Hfresh Hflow H200 Hgen].
  - left. by rewrite Hw.
  - right. by exists b, p, id, u.
  - right. by exists b, p, id, u.
Qed.

(** ** The limit is kept *)

(** X12: the monthly count of a user whose tier has a numeric limit never
    passes the limit through the handler: if the count is at most the
    limit before a request, of any user, it is at most the limit after
    it, and it has grown by at most one. *)
Theorem monthly_count_stays_within_the_limit trim JSON_parse e req w id u limit used :
  users w !! id = Some u ->
  limit_of (subscription_tier u) = Limit limit ->
  flows_generated_this_month u = Some used ->
  used <= limit ->
  exists u' used',
    users (handler trim JSON_parse e req w).2 !! id = Some u'
    /\ subscription_tier u' = subscription_tier u
    /\ flows_generated_this_month u' = Some used'
    /\ used <= used' <= used + 1
    /\ used' <= limit.
Proof.
  intros Hu Hlimit Hused Hle.
  destruct (handler_outcome trim JSON_parse e req w)
    as [Hw Hno|b p id0 u0 _ Hid Hu0 Hunder Hkey Hllm Husers Hno
       |b p id0 u0 _ Hid Hu0 Hunder Hkey Hllm Husers Hfresh Hflow H200 Hgen].
  - exists u, used. rewrite Hw. repeat split; try done; lia.
  - exists u, used. rewrite Husers. repeat split; try done; lia.
  - rewrite Husers. destruct (decide (id0 = id)) as [->|Hne].
    + assert (u0 = u) as -> by congruence.
      exists (count_flow e u), (used + 1). rewrite lookup_insert_eq.
      unfold under_limit in Hunder. rewrite Hlimit, Hused in Hunder. simpl in Hunder.
      apply Z.leb_gt in Hunder.
      repeat split; try done; try lia. simpl. by rewrite Hused.
    + exists u, used. rewrite lookup_insert_ne by done. repeat split; try done; lia.
Qed.

Lemma monthly_count_stays_within_the_limit_witness :
  exists u' used',
    users (handler (fun s => s) parse_empty_object claude generate_request
             (world_of "pro")).2 !! 9%N = Some u'
    /\ flows_generated_this_month u' = Some used'
    /\ used' <= 50.
Proof.
  destruct (monthly_count_stays_within_the_limit (fun s => s) parse_empty_object claude
              generate_request (world_of "pro") 9%N (heavy_user "pro") 50 5
              eq_refl eq_refl eq_refl)
    as (u' & used' & Hu' & _ & Hused' & _ & Hle); [lia|].
  exists u', used'. split; [exact Hu'|]. split; [exact Hused'|exact Hle].
Defined.

(** ** A successful generation *)

Lemma varchar_255_short name :
  (String.length name <= 255)%nat -> varchar_255 name = Some name.
Proof.
  intros Hle. unfold varchar_255.
  by assert ((String.length name <=? 255)%nat = true) as -> by by apply Nat.leb_le.
Qed.

Lemma hundredths_rounds ms k : rounds_to ms k -> hundredths ms = k.
Proof.
  unfold rounds_to, hundredths. destruct (decide (0 <= ms)) as [Hpos|Hneg].
  - intros Hk. assert ((0 <=? ms)%Z = true) as -> by by apply Z.leb_le.
    symmetry. apply Z.div_unique with (r := ms + 5 - 10 * k); lia.
  - intros Hk. assert ((0 <=? ms)%Z = false) as -> by (apply Z.leb_gt; lia).
    assert ((- ms + 5) / 10 = - k) as ->; [|lia].
    symmetry. apply Z.div_unique with (r := - ms + 5 + 10 * k); lia.
Qed.

(** X13: for a POST with a non-blank prompt by an existing user under the
    limit, with the API key configured, when the LLM API returns a text
    block whose cleaned text parses as a JSON object, and the database
    takes the row (it reads the object as JSONB, the flow name has at most
    255 characters, the time rounded to hundredths of a second is below
    10^8 seconds, the token count fits INTEGER, the generated id is
    unused) and the counters have room, the
    handler answers 200 with the parsed flow, the cleaned text, the count
    after this flow, what remains of the limit, and the time in seconds;
    it stores one flow row (named "Untitled Flow" when no name was given)
    with the JSONB value, the approximate token count (prompt and reply
    lengths over 4, rounded up) and the time rounded to hundredths of a
    second, and logs one flow_generated row. *)
Theorem successful_generation_is_recorded
    trim JSON_parse e req w b p id u content text fields stored k :
  method req = "POST" ->
  req_body req = Some b ->
  prompt b = Some p ->
  p <> "" ->
  String.length (trim p) <> 0%nat ->
  userId b = Some id ->
  users w !! id = Some u ->
  exhausted (remaining_of (limit_of (subscription_tier u))
               (flows_generated_this_month u)) = false ->
  given (ANTHROPIC_API_KEY e) = true ->
  fetch_messages e p (flowName b) = Content content ->
  first_text content = Some text ->
  text <> "" ->
  JSON_parse (clean trim text) = Some (JObj fields) ->
  let name := if given (flowName b) then default "" (flowName b) else "Untitled Flow" in
  let tokens := (Z.of_nat (String.length p + String.length text) + 3) / 4 in
  read_jsonb e (JObj fields) = Ok stored ->
  tokens <= 2147483647 ->
  (String.length name <= 255)%nat ->
  rounds_to (elapsed_ms e) k ->
  Z.abs k < 10 ^ 10 ->
  flows w !! new_flow_id e = None ->
  fits (bump (flows_generated_this_month u)) = true ->
  fits (bump (total_flows_generated u)) = true ->
  handler trim JSON_parse e req w =
    ({| status_code := 200;
        json_body :=
          Generated (JObj fields) (clean trim text) (subscription_tier u)
            (limit_of (subscription_tier u))
            (Num (default 0 (flows_generated_this_month u) + 1))
            (number_add (remaining_of (limit_of (subscription_tier u))
                           (flows_generated_this_month u)) (-1))
            tokens (Qmake (elapsed_ms e) 1000) |},
     {| users := <[id := count_flow e u]> (users w);
        flows :=
          <[new_flow_id e :=
              {| flow_user_id := id; flow_name := name;
                 flow_prompt := p; generated_json := Some stored;
                 tokens_used := tokens;
                 generation_time_seconds := Qmake k 100;
                 success := true |}]> (flows w);
        usage_logs :=
          (usage_logs w ++
           [{| log_user_id := Some id; action_type := "flow_generated";
               metadata :=
                 FlowGenerated (new_flow_id e) tokens (Qmake (elapsed_ms e) 1000) |}])%list;
        llm_requests := (llm_requests w ++ [(p, flowName b)])%list |}).
Proof.
  intros Hm Hb Hp Hne Htrim Hid Hu Hex Hkey Hfetch Htext Htne Hparse name tokens
    Hstored Htokens Hname Hk Htime Hfresh Hf1 Hf2.
  subst name tokens. unfold handler, generate. rewrite Hm. simpl. rewrite Hb, Hp.
  assert (given (Some p) = true) as -> by (apply TenantSyncSpec.given_Some; eauto). simpl.
  assert ((String.length (trim p) =? 0)%nat = false) as -> by by apply Nat.eqb_neq.
  rewrite Hid. unfold bind at 1. unfold select. rewrite Hu, Hex, Hkey. simpl.
  unfold bind at 1. unfold call_llm. rewrite Hfetch, Htext.
  assert (given (Some text) = true) as -> by (apply TenantSyncSpec.given_Some; eauto).
  simpl. rewrite Hparse. unfold bind at 1. unfold insert_flow, bind_jsonb. simpl.
  rewrite Hstored.
  assert (int4 ((Z.of_nat (String.length p + String.length text) + 3) / 4) = true) as ->.
  { unfold int4. apply andb_true_iff. split; apply Z.leb_le; [|done].
    assert (0 <= (Z.of_nat (String.length p + String.length text) + 3) / 4); [|lia].
    apply Z.div_pos; lia. }
  rewrite (varchar_255_short _ Hname). simpl.
  unfold decimal_10_2. rewrite (hundredths_rounds _ _ Hk).
  assert ((Z.abs k <? 10 ^ 10)%Z = true) as -> by by apply Z.ltb_lt.
  rewrite Hfresh.
  unfold bind at 1. unfold increment_flow_count. simpl. rewrite Hu, Hf1, Hf2. simpl.
  done.
Qed.

Lemma successful_generation_is_recorded_witness :
  (handler (fun s => s) parse_empty_object claude generate_request (world_of "pro")).1
  = {| status_code := 200;
       json_body :=
         Generated (JObj []) "{}" (Some "pro") (Limit 50) (Num 6) (Num 44) 8
           (Qmake 1200 1000) |}.
Proof.
  rewrite (successful_generation_is_recorded (fun s => s) parse_empty_object claude
             generate_request (world_of "pro") _ "Email me when a file is added"
             9%N (heavy_user "pro") _ "{}" [] (JObj []) 120
             eq_refl eq_refl eq_refl ltac:(discriminate) ltac:(discriminate)
             eq_refl eq_refl eq_refl eq_refl eq_refl eq_refl ltac:(discriminate)
             eq_refl eq_refl ltac:(vm_compute; discriminate) ltac:(simpl; lia)
             ltac:(unfold rounds_to; destruct (decide _); simpl in *; lia)
             ltac:(vm_compute; reflexivity) eq_refl eq_refl eq_refl).
  reflexivity.
Defined.

(** X19: a flow the database cannot store is not charged.  When the
    reply of the LLM API parses to a non-empty JSON array, which
    node-postgres sends as an array literal, the INSERT into flows is
    refused: the handler answers 500 with the database's message, stores
    no flow, leaves the users table as it is, and logs one
    flow_generation_error row; the call to the LLM API has been made. *)
Theorem array_reply_is_not_stored
    trim JSON_parse e req w b p id u content text item items :
  method req = "POST" ->
  req_body req = Some b ->
  prompt b = Some p ->
  p <> "" ->
  String.length (trim p) <> 0%nat ->
  userId b = Some id ->
  users w !! id = Some u ->
  exhausted (remaining_of (limit_of (subscription_tier u))
               (flows_generated_this_month u)) = false ->
  given (ANTHROPIC_API_KEY e) = true ->
  fetch_messages e p (flowName b) = Content content ->
  first_text content = Some text ->
  text <> "" ->
  JSON_parse (clean trim text) = Some (JArr (item :: items)) ->
  handler trim JSON_parse e req w =
    ({| status_code := 500;
        json_body := InternalError "invalid input syntax for type json" |},
     {| users := users w; flows := flows w;
        usage_logs :=
          (usage_logs w ++
           [{| log_user_id := Some id; action_type := "flow_generation_error";
               metadata := GenerationError "invalid input syntax for type json"
                             (Some (substring 0 100 p)) |}])%list;
        llm_requests := (llm_requests w ++ [(p, flowName b)])%list |}).
Proof.
  intros Hm Hb Hp Hne Htrim Hid Hu Hex Hkey Hfetch Htext Htne Hparse.
  unfold handler, generate, log_error. rewrite Hm. simpl. rewrite Hb, Hp.
  assert (given (Some p) = true) as -> by (apply TenantSyncSpec.given_Some; eauto). simpl.
  assert ((String.length (trim p) =? 0)%nat = false) as -> by by apply Nat.eqb_neq.
  rewrite Hid. unfold bind at 1. unfold select. rewrite Hu, Hex, Hkey. simpl.
  unfold bind at 1. unfold call_llm. rewrite Hfetch, Htext.
  assert (given (Some text) = true) as -> by (apply TenantSyncSpec.given_Some; eauto).
  simpl. rewrite Hparse. unfold bind at 1. unfold insert_flow, bind_jsonb. simpl.
  by rewrite Hu.
Qed.

Lemma array_reply_is_not_stored_witness :
  (handler (fun s => s) parse_list claude_list generate_request (world_of "pro")).1
  = {| status_code := 500;
       json_body := InternalError "invalid input syntax for type json" |}.
Proof.
  rewrite (array_reply_is_not_stored (fun s => s) parse_list claude_list
             generate_request (world_of "pro") _ "Email me when a file is added"
             9%N (heavy_user "pro") _ "[1]" (JNum 1) []
             eq_refl eq_refl eq_refl ltac:(discriminate) ltac:(discriminate)
             eq_refl eq_refl eq_refl eq_refl eq_refl eq_refl ltac:(discriminate)
             eq_refl).
  reflexivity.
Defined.

(** ** An error of the LLM API *)

(** X14: when the LLM API answers with an HTTP error, the handler replies
    with that very status (a 429 of the API reaches the client as a 429,
    like a reached limit does) and the error text, has made the one call,
    and has written nothing to the database. *)
Theorem llm_error_status_is_passed_on trim JSON_parse e req w b p id u status errorData :
  method req = "POST" ->
  req_body req = Some b ->
  prompt b = Some p ->
  p <> "" ->
  String.length (trim p) <> 0%nat ->
  userId b = Some id ->
  users w !! id = Some u ->
  exhausted (remaining_of (limit_of (subscription_tier u))
               (flows_generated_this_month u)) = false ->
  given (ANTHROPIC_API_KEY e) = true ->
  fetch_messages e p (flowName b) = NotOk status errorData ->
  handler trim JSON_parse e req w =
    ({| status_code := status; json_body := ClaudeApiError status errorData |},
     {| users := users w; flows := flows w; usage_logs := usage_logs w;
        llm_requests := (llm_requests w ++ [(p, flowName b)])%list |}).
Proof.
  intros Hm Hb Hp Hne Htrim Hid Hu Hex Hkey Hfetch.
  unfold handler, generate. rewrite Hm. simpl. rewrite Hb, Hp.
  assert (given (Some p) = true) as -> by (apply TenantSyncSpec.given_Some; eauto). simpl.
  assert ((String.length (trim p) =? 0)%nat = false) as -> by by apply Nat.eqb_neq.
  rewrite Hid. unfold bind at 1. unfold select. rewrite Hu, Hex, Hkey. simpl.
  unfold bind at 1. unfold call_llm. by rewrite Hfetch.
Qed.

Lemma llm_error_status_is_passed_on_witness :
  (handler (fun s => s) parse_empty_object overloaded generate_request (world_of "pro")).1
  = {| status_code := 429; json_body := ClaudeApiError 429 "rate_limit_error" |}.
Proof.
  rewrite (llm_error_status_is_passed_on (fun s => s) parse_empty_object overloaded
             generate_request (world_of "pro") _ "Email me when a file is added"
             9%N (heavy_user "pro") 429 "rate_limit_error"
             eq_refl eq_refl eq_refl ltac:(discriminate) ltac:(discriminate)
             eq_refl eq_refl eq_refl eq_refl eq_refl).
  reflexivity.
Defined.

(** X15: a thrown error is answered and logged.  When the call to the
    LLM API itself fails, the handler answers 500 with the error message
    and appends one flow_generation_error row for the user, holding the
    message and the first 100 characters of the prompt; users and flows
    are not written. *)
Theorem failed_call_is_logged trim JSON_parse e req w b p id u message :
  method req = "POST" ->
  req_body req = Some b ->
  prompt b = Some p ->
  p <> "" ->
  String.length (trim p) <> 0%nat ->
  userId b = Some id ->
  users w !! id = Some u ->
  exhausted (remaining_of (limit_of (subscription_tier u))
               (flows_generated_this_month u)) = false ->
  given (ANTHROPIC_API_KEY e) = true ->
  fetch_messages e p (flowName b) = Rejected message ->
  handler trim JSON_parse e req w =
    ({| status_code := 500; json_body := InternalError message |},
     {| users := users w; flows := flows w;
        usage_logs :=
          (usage_logs w ++
           [{| log_user_id := Some id; action_type := "flow_generation_error";
               metadata := GenerationError message (Some (substring 0 100 p)) |}])%list;
        llm_requests := (llm_requests w ++ [(p, flowName b)])%list |}).
Proof.
  intros Hm Hb Hp Hne Htrim Hid Hu Hex Hkey Hfetch.
  unfold handler, generate, log_error. rewrite Hm. simpl. rewrite Hb, Hp.
  assert (given (Some p) = true) as -> by (apply TenantSyncSpec.given_Some; eauto). simpl.
  assert ((String.length (trim p) =? 0)%nat = false) as -> by by apply Nat.eqb_neq.
  rewrite Hid. unfold bind at 1. unfold select. rewrite Hu, Hex, Hkey. simpl.
  unfold bind at 1. unfold call_llm. rewrite Hfetch. simpl. by rewrite Hu.
Qed.

Lemma failed_call_is_logged_witness :
  (handler (fun s => s) parse_empty_object unreachable generate_request (world_of "pro")).1
  = {| status_code := 500; json_body := InternalError "fetch failed" |}.
Proof.
  rewrite (failed_call_is_logged (fun s => s) parse_empty_object unreachable
             generate_request (world_of "pro") _ "Email me when a file is added"
             9%N (heavy_user "pro") "fetch failed"
             eq_refl eq_refl eq_refl ltac:(discriminate) ltac:(discriminate)
             eq_refl eq_refl eq_refl eq_refl eq_refl).
  reflexivity.
Defined.

(** ** Cleaning the reply *)

Lemma prefix_append p s : String.prefix p (p ++ s) = true.
Proof.
  induction p as [|a p IH]; simpl; [by destruct s|].
  destruct (ascii_dec a a); [done|congruence].
Qed.

Lemma length_append p s : String.length (p ++ s) = (String.length p + String.length s)%nat.
Proof. induction p as [|a p IH]; simpl; [done|by rewrite IH]. Qed.

Lemma substring_skip p s m : substring (String.length p) m (p ++ s) = substring 0 m s.
Proof. induction p as [|a p IH]; simpl; [done|apply IH]. Qed.

Lemma substring_all s : substring 0 (String.length s) s = s.
Proof. induction s as [|a s IH]; simpl; [done|by rewrite IH]. Qed.

Lemma substring_take s t : substring 0 (String.length s) (s ++ t) = s.
Proof.
  induction s as [|a s IH]; simpl; [by destruct t|by rewrite IH].
Qed.

Lemma drop_prefix_append p s : drop_prefix p (p ++ s) = s.
Proof.
  unfold drop_prefix. rewrite length_append, substring_skip.
  replace (String.length p + String.length s - String.length p)%nat
    with (String.length s) by lia.
  apply substring_all.
Qed.

Lemma drop_fence_at_end_append s : drop_fence_at_end (s ++ "```") = s.
Proof.
  unfold drop_fence_at_end. rewrite length_append. simpl String.length.
  replace (String.length s + 3 - 3)%nat with (String.length s) by lia.
  rewrite substring_skip, substring_take.
  replace (3 <=? String.length s + 3)%nat with true
    by (symmetry; apply Nat.leb_le; lia).
  reflexivity.
Qed.

(** X16: a reply wrapped in a Markdown fence is unwrapped.  For a reply
    that, once trimmed, is a fence opening (with or without the word
    json), a line break, some text and a closing fence, the cleaned text
    is that text, trimmed. *)
Theorem fenced_reply_is_unwrapped trim reply text :
  trim reply = "```json" ++ newline ++ text ++ "```"
  \/ trim reply = "```" ++ newline ++ text ++ "```" ->
  clean trim reply = trim text.
Proof.
  intros [Hr|Hr]; unfold clean; rewrite Hr.
  - rewrite prefix_append, drop_prefix_append.
    change (drop_newline (newline ++ text ++ "```")) with (text ++ "```").
    by rewrite drop_fence_at_end_append.
  - change (String.prefix "```json" ("```" ++ newline ++ text ++ "```")) with false.
    rewrite prefix_append, drop_prefix_append.
    change (drop_newline (newline ++ text ++ "```")) with (text ++ "```").
    by rewrite drop_fence_at_end_append.
Qed.

Lemma fenced_reply_is_unwrapped_witness :
  clean (fun s => s) ("```json" ++ newline ++ "{}" ++ "```") = "{}".
Proof.
  exact (fenced_reply_is_unwrapped (fun s => s) _ "{}" (or_introl eq_refl)).
Defined.

(** ** The usage helpers *)

(** X17: checkUsageLimit and the handler agree on who has reached the
    limit, for every tier with a numeric limit: for a well-formed request
    of an existing user, checkUsageLimit reports the same limit and
    canGenerate false exactly when the handler answers with the
    usage-limit reply.  (For a tier named like an inherited property they
    differ: canGenerate is false and the handler lets the user in.) *)
Theorem checkUsageLimit_agrees_with_the_handler trim JSON_parse e req w b p id u limit :
  method req = "POST" ->
  req_body req = Some b ->
  prompt b = Some p ->
  p <> "" ->
  String.length (trim p) <> 0%nat ->
  userId b = Some id ->
  users w !! id = Some u ->
  limit_of (subscription_tier u) = Limit limit ->
  exists report,
    checkUsageLimit id w = (Ok report, w)
    /\ usage_limit report = Limit limit
    /\ usage_used report = flows_generated_this_month u
    /\ usage_remaining report = Num (limit - default 0 (flows_generated_this_month u))
    /\ (canGenerate report = false <->
        is_limit_reply (json_body (handler trim JSON_parse e req w).1)).
Proof.
  intros Hm Hb Hp Hne Htrim Hid Hu Hlimit.
  unfold checkUsageLimit, bind, select, ret. rewrite Hu, Hlimit. simpl.
  eexists. split; [done|]. simpl. repeat (split; [done|]).
  unfold handler, generate, log_error. rewrite Hm. simpl. rewrite Hb, Hp.
  assert (given (Some p) = true) as -> by (apply TenantSyncSpec.given_Some; eauto). simpl.
  assert ((String.length (trim p) =? 0)%nat = false) as -> by by apply Nat.eqb_neq.
  rewrite Hid. unfold bind at 1. unfold select. rewrite Hu, Hlimit. simpl.
  destruct (Z.leb_spec (limit - default 0 (flows_generated_this_month u)) 0) as [Hle|Hgt].
  - simpl. split; [done|]. intros _. apply Z.ltb_ge. lia.
  - split.
    + intros Hcan. apply Z.ltb_ge in Hcan. lia.
    + intros Hreply. exfalso. revert Hreply.
      destruct (given (ANTHROPIC_API_KEY e)); [simpl|done].
      unfold bind at 1. unfold call_llm.
      destruct (fetch_messages e p (flowName b)) as [msg|st err|content]; simpl; try done.
      destruct (given (first_text content)); simpl; [|done].
      destruct (JSON_parse _); [|done].
      unfold bind at 1. unfold insert_flow. simpl.
      destruct (bind_jsonb _ e _); [|done].
      destruct (int4 _); simpl; [|done].
      destruct (varchar_255 _); [|done].
      destruct (decimal_10_2 _); [|done].
      destruct (flows w !! new_flow_id e); simpl; [done|].
      unfold bind at 1. unfold increment_flow_count. simpl. rewrite Hu.
      by destruct (fits _ && fits _).
Qed.

Lemma checkUsageLimit_agrees_with_the_handler_witness :
  exists report,
    checkUsageLimit 9%N (world_of "free") = (Ok report, world_of "free")
    /\ usage_limit report = Limit 3
    /\ canGenerate report = false.
Proof.
  destruct (checkUsageLimit_agrees_with_the_handler (fun s => s) parse_empty_object claude
              generate_request (world_of "free") _ "Email me when a file is added"
              9%N (heavy_user "free") 3
              eq_refl eq_refl eq_refl ltac:(discriminate) ltac:(discriminate)
              eq_refl eq_refl eq_refl)
    as (report & Hrun & Hlimit & _ & _ & Hcan).
  exists report. split; [exact Hrun|]. split; [exact Hlimit|].
  apply Hcan. vm_compute. exact I.
Defined.

(** X18: incrementFlowCount moves checkUsageLimit by one.  For a user
    with a numeric limit and a count, after incrementFlowCount the report
    of checkUsageLimit shows one more flow used and one less remaining,
    and canGenerate says whether anything remains; the tier and the
    limit are as before. *)
Theorem incrementFlowCount_uses_up_one id w u limit used :
  users w !! id = Some u ->
  limit_of (subscription_tier u) = Limit limit ->
  flows_generated_this_month u = Some used ->
  fits (bump (flows_generated_this_month u)) = true ->
  fits (bump (total_flows_generated u)) = true ->
  let w' := (incrementFlowCount id w).2 in
  (incrementFlowCount id w).1 = Ok tt
  /\ checkUsageLimit id w' =
       (Ok {| usage_tier := subscription_tier u;
              usage_limit := Limit limit;
              usage_used := Some (used + 1);
              usage_remaining := Num (limit - (used + 1));
              canGenerate := (0 <? limit - (used + 1))%Z |},
        w')
  /\ forall id', id' <> id -> users w' !! id' = users w !! id'.
Proof.
  intros Hu Hlimit Hused Hf1 Hf2 w'. subst w'.
  unfold incrementFlowCount. rewrite Hu, Hf1, Hf2. simpl.
  split; [done|]. split.
  - unfold checkUsageLimit, bind, select, ret. simpl. rewrite lookup_insert_eq. simpl.
    by rewrite Hlimit, Hused.
  - intros id' Hne. by rewrite lookup_insert_ne.
Qed.

Lemma incrementFlowCount_uses_up_one_witness :
  (checkUsageLimit 9%N (incrementFlowCount 9%N (world_of "pro")).2).1
  = Ok {| usage_tier := Some "pro"; usage_limit := Limit 50; usage_used := Some 6;
          usage_remaining := Num 44; canGenerate := true |}.
Proof.
  destruct (incrementFlowCount_uses_up_one 9%N (world_of "pro") (heavy_user "pro") 50 5
              eq_refl eq_refl eq_refl eq_refl eq_refl) as (_ & Hcheck & _).
  rewrite Hcheck. reflexivity.
Defined.

End GenerateFlowExtras.
